(** * LeetNode: question serving, answer checking and the question editor

    A shallow embedding of the parts of the LeetNode web application that
    decide which question instance a learner is served, how a submitted
    selection is marked, how the welcome quiz counts its questions, and how
    the question editor validates methods and picks variation ids.

    Source files embedded here:
    - [pages/api/question/questionsWithAddedTime.ts]  (module [Endpoint])
    - the welcome-quiz page [QuizQuestion]            (module [Quiz])
    - the admin [QuestionEditor]                      (module [Editor])
    - the Prisma schema                               (module [Schema])

    Three collaborators have no source here and are modelled from the
    specification: the expression evaluator (module [Evaluator]), the
    creation of a mastery record (module [MasteryModel]) and the shuffle
    (module [CustomMath]). The endpoint and the editor take their
    collaborators as parameters.

    JavaScript numbers that hold ids, counters and timestamps are integers
    in this code and are modelled as [Z] (or [nat] for a counter that starts
    at 0 and only grows); strings are [string]; arrays are lists; an
    optional or nullable field is an [option]. *)

From Stdlib Require Import ZArith QArith Ascii String DecimalString Bool Lia.
From stdpp Require Import base list sorting strings gmap.

Local Open Scope string_scope.

(** ** JavaScript primitives used by the embedded code *)

Module Js.

(** What a JS computation can throw: an [Error] object (with its message
    and optional [cause]) or any other value. *)
Inductive thrown :=
| Error (message : string) (cause : option string)
| NonError (description : string).

(** A computation either returns normally or throws. *)
Inductive completion (A : Type) :=
| Return (a : A)
| Throw (e : thrown).
Arguments Return {A} a.
Arguments Throw {A} e.

(** A JS number restricted to what [parseInt] can give: an integer or NaN.
    [parseInt] of a digit string is exact below 2^53; larger values are
    rounded by JS but stay larger than any 32-bit database id, so
    membership tests against ids agree with this exact model. *)
Inductive number :=
| Num (z : Z)
| NaN.

(** SameValueZero, the comparison of [Array.prototype.includes]. *)
Definition sameValueZero (a b : number) : bool :=
  match a, b with
  | Num x, Num y => (x =? y)%Z
  | NaN, NaN => true
  | _, _ => false
  end.

(** [a === b] on numbers: NaN equals nothing. *)
Definition strictEquals (a b : number) : bool :=
  match a, b with
  | Num x, Num y => (x =? y)%Z
  | _, _ => false
  end.

(** [arr.includes(x)] for a comparison [eqb]. *)
Definition includes {A : Type} (eqb : A -> A -> bool) (arr : list A) (x : A) : bool :=
  existsb (eqb x) arr.

(** Truthiness of a string: every string but the empty one. *)
Definition truthy (s : string) : bool :=
  match s with
  | EmptyString => false
  | String _ _ => true
  end.

(** White space (the ASCII part of StrWhiteSpaceChar). *)
Definition isWhiteSpace (c : ascii) : bool :=
  let n := nat_of_ascii c in
  ((9 <=? n)%nat && (n <=? 13)%nat) || (n =? 32)%nat.

Fixpoint trimStart (s : string) : string :=
  match s with
  | EmptyString => EmptyString
  | String c rest => if isWhiteSpace c then trimStart rest else s
  end.

Fixpoint trimEnd (s : string) : string :=
  match s with
  | EmptyString => EmptyString
  | String c rest =>
      match trimEnd rest with
      | EmptyString => if isWhiteSpace c then EmptyString else String c EmptyString
      | rest' => String c rest'
      end
  end.

(** [s.trim()] *)
Definition trim (s : string) : string := trimEnd (trimStart s).

Definition digitValue (c : ascii) : option Z :=
  let n := Z.of_nat (nat_of_ascii c) in
  if ((48 <=? n) && (n <=? 57))%Z then Some (n - 48)%Z else None.

(** The longest prefix of decimal digits, as a number; [None] when the
    string does not start with a digit. *)
Fixpoint leadingDigits (acc : option Z) (s : string) : option Z :=
  match s with
  | EmptyString => acc
  | String c rest =>
      match digitValue c with
      | Some d => leadingDigits (Some (10 * default 0%Z acc + d)%Z) rest
      | None => acc
      end
  end.

(** [parseInt(s, 10)]: leading white space is skipped, an optional sign is
    read, then the longest run of digits; NaN if there is none. *)
Definition parseInt (s : string) : number :=
  let s := trimStart s in
  let '(negative, body) :=
    match s with
    | String "-" rest => (true, rest)
    | String "+" rest => (false, rest)
    | _ => (false, s)
    end in
  match leadingDigits None body with
  | Some n => Num (if negative : bool then - n else n)%Z
  | None => NaN
  end.

(** A template literal prints an undefined value as the text "undefined". *)
Definition interpolate (v : option string) : string :=
  default "undefined" v.

(** [arr.join(sep)] *)
Fixpoint join (sep : string) (arr : list string) : string :=
  match arr with
  | [] => ""
  | [x] => x
  | x :: rest => x ++ sep ++ join sep rest
  end.

End Js.

(** ** The Prisma schema: the records the embedded code reads and writes *)

Module Schema.

(** One answer option, [QuestionDataType["answers"][number]]. *)
Record Answer := {
  key : string;
  answerContent : string;
  isCorrect : bool;
  isLatex : bool;
}.

(** One variable of a question, as the editor form declares it. *)
Record QVariable := {
  name : string;
  randomize : bool;
  isFinalAnswer : bool;
  unit : option string;
  default_ : option string;
  min : option Q;
  max : option Q;
  decimalPlaces : option Z;
  step : option Q;
}.

Record Method := {
  expr : string;
  explanation : option string;
}.

Record Hint := { hint : string }.

(** [QuestionDataType]: every part is optional. *)
Record QuestionData := {
  variables : option (list QVariable);
  methods : option (list Method);
  hints : option (list Hint);
  answers : option (list Answer);
}.

(** A final answer as the editor previews it. *)
Record EditorAnswer := {
  ea_name : string;
  ea_unit : option string;
  ea_answerContent : string;
  incorrectAnswers : list string;
}.

(** What [CustomEval] returns. *)
Record Evaluated := {
  questionVariables : list QVariable;
  questionAnswers : list Answer;
  editorAnswers : list EditorAnswer;
}.

Inductive Level := Foundational | Intermediate | Advanced.
Inductive QuestionDifficulty := Easy | Medium | Hard.

(** [model Topic]; [topicPrior Float @default(0.25)]. *)
Record Topic := {
  topicSlug : string;
  topicName : string;
  topicLevel : Level;
  topicPrior : Q;
}.

Definition topicPrior_default : Q := 0.25.

(** [model Mastery], identified by [(userId, topicSlug)]. *)
Record Mastery := {
  m_userId : string;
  m_topicSlug : string;
  masteryLevel : Q;
  topicPing : bool;
  lastFlagged : option Z;
  errorMeter : Z;
  weeklyMasteryLevel : Q;
  fortnightlyMasteryLevel : Q;
}.

(** The [@default] values of [model Mastery]. *)
Definition masteryLevel_default : Q := 0.
Definition topicPing_default : bool := false.
Definition errorMeter_default : Z := 0.
Definition weeklyMasteryLevel_default : Q := 0.
Definition fortnightlyMasteryLevel_default : Q := 0.

(** [model Question], identified by [(questionId, variationId)]. *)
Record Question := {
  questionId : Z;
  variationId : Z;
  q_topicSlug : string;
  questionTitle : string;
  questionDifficulty : QuestionDifficulty;
  questionContent : string;
  questionData : option QuestionData;
  lastModified : Z;
}.

(** [model QuestionWithAddedTime]: a question materialized for one user in
    one course. *)
Record QuestionWithAddedTime := {
  qatId : string;
  qat_questionId : Z;
  qat_variationId : Z;
  userId : string;
  courseSlug : string;
  qat_variables : option (list QVariable);
  qat_answers : list Answer;
  addedTime : Z;
}.

(** [model Attempt]. *)
Record Attempt := {
  attemptId : string;
  a_qatId : string;
  a_userId : string;
  a_courseSlug : string;
  attemptedKeys : list string;
  a_isCorrect : bool;
  submittedAt : Z;
}.

End Schema.

(** ** The welcome-quiz page, [QuizQuestion] *)

Module Quiz.
Import Schema.

Definition maxQnCount : nat := 15.

(** [answerOptions.filter((item) => item.isCorrect).map((item) => item.key)] *)
Definition correctKeys (answerOptions : list Answer) : list string :=
  map key (List.filter isCorrect answerOptions).

(** The [isCorrect] field of the submitted body:
    [selectedKeys.length === correctKeys.length &&
     selectedKeys.every((item) => correctKeys.includes(item))] *)
Definition isCorrectSelection (selectedKeys correctKeys : list string) : bool :=
  (length selectedKeys =? length correctKeys)%nat
  && forallb (fun item => Js.includes String.eqb correctKeys item) selectedKeys.

(** The instance the page got from the endpoint, [UCQAT.data]. *)
Record UcqatData := {
  instance : QuestionWithAddedTime;
  question : Question;
  questionTopicName : string;
}.

Record SubmitQuery := { sq_qatId : string; sq_courseSlug : string }.

Record SubmitBody := {
  sb_attemptedKeys : list string;
  sb_isCorrect : bool;
  sb_topicSlug : string;
  sb_topicName : string;
}.

Inductive SubmitResult :=
| ToastError (message : string)
| SubmitAnswer (query : SubmitQuery) (body : SubmitBody).

Definition currentCourseSlug : string := "welcome-quiz".

(** The form's [onSubmit]. *)
Definition onSubmit (selectedKeys : list string) (data : UcqatData) : SubmitResult :=
  if (length selectedKeys =? 0)%nat then ToastError "Please select an option"
  else
    SubmitAnswer
      {| sq_qatId := qatId (instance data); sq_courseSlug := currentCourseSlug |}
      {| sb_attemptedKeys := selectedKeys;
         sb_isCorrect :=
           isCorrectSelection selectedKeys (correctKeys (qat_answers (instance data)));
         sb_topicSlug := q_topicSlug (question data);
         sb_topicName := questionTopicName data |}.

(** The component's state. [UCQAT] is [None] while the query has no
    result, [Some None] when the response carries no data; [isNewUser] is
    [user?.data.isNewUser], [None] while the user query has no result.
    [ucqatFetches] counts the requests made for the ["get-ucqat"] query. *)
Record State := {
  qnCount : nat;
  isNewUser : option bool;
  UCQAT : option (option UcqatData);
  selectedKeys : list string;
  ucqatFetches : nat;
  pointsUpdates : nat;
}.

Inductive View :=
| Loader
| StayTuned
| ReviewShell
| QuestionForm (data : UcqatData).

(** What the component returns for a state. *)
Definition render (s : State) : View :=
  match UCQAT s with
  | None => Loader
  | Some None => StayTuned
  | Some (Some data) =>
      if (qnCount s =? maxQnCount)%nat || negb (default false (isNewUser s))
      then ReviewShell
      else QuestionForm data
  end.

(** [onSuccess] of the submit mutation. [qnCountAtRender] is the value of
    [qnCount] the callback closed over: the one of the render that created
    it. The counter is bumped through the updater function, the guard
    reads the closed-over value. [next] is what the refetch of
    ["get-ucqat"] brings back. *)
Definition onSuccess (qnCountAtRender : nat) (next : option UcqatData) (s : State) : State :=
  let s1 :=
    {| qnCount := qnCount s + 1;
       isNewUser := isNewUser s;
       UCQAT := UCQAT s;
       selectedKeys := [];
       ucqatFetches := ucqatFetches s;
       pointsUpdates := pointsUpdates s |} in
  if (qnCountAtRender <? maxQnCount)%nat then
    {| qnCount := qnCount s1;
       isNewUser := isNewUser s1;
       UCQAT := Some next;
       selectedKeys := selectedKeys s1;
       ucqatFetches := ucqatFetches s1 + 1;
       pointsUpdates := pointsUpdates s1 + 1 |}
  else s1.

(** One learner action: the learner picks [keys] and presses Submit, the
    submission succeeds, and [next] is the data of the following fetch. *)
Record Answered := { keys : list string; next : option UcqatData }.

(** A submission is possible only from the rendered form, and only a
    non-empty selection is sent. *)
Definition step (s : State) (ev : Answered) : State :=
  match render s with
  | QuestionForm data =>
      match onSubmit (keys ev) data with
      | ToastError _ => s
      | SubmitAnswer _ _ => onSuccess (qnCount s) (next ev) s
      end
  | _ => s
  end.

Definition run (s : State) (evs : list Answered) : State :=
  fold_left step evs s.

(** The page right after its first fetch returned [data] for a new user. *)
Definition mounted (data : option UcqatData) : State :=
  {| qnCount := 0;
     isNewUser := Some true;
     UCQAT := Some data;
     selectedKeys := [];
     ucqatFetches := 1;
     pointsUpdates := 0 |}.

(** What holds of every state a session reaches from a mounted page: the
    counter never passes [maxQnCount], and one fetch was made at mount
    plus one for every counted answer. *)
Definition reachable (s : State) : Prop :=
  (qnCount s <= maxQnCount)%nat /\ ucqatFetches s = (1 + qnCount s)%nat.

End Quiz.

(** ** The question-serving endpoint, [pages/api/question/questionsWithAddedTime.ts] *)

Module Endpoint.
Import Schema Js.

(** [excluded2025QuestionIds], as the handler declares it. *)
Definition excluded2025QuestionIds : list number :=
  map Num
    [89; 98; 90; 91; 92; 93; 94; 95; 96; 97;
     79; 106; 107; 108; 99; 74; 100; 101; 102; 103; 104; 105]%Z.

(** What the handler reads from the request: [session?.user?.id],
    [req.query.courseSlug] and [req.query.prevId]; each may be undefined. *)
Record Request := {
  sessionUserId : option string;
  queryCourseSlug : option string;
  queryPrevId : option string;
}.

(** The excluded ids after the [if (prevId)] block: the parsed [prevId] is
    pushed unless the array already includes it. *)
Definition excludedQuestionIds (prevId : option string) : list number :=
  match prevId with
  | Some prevId =>
      if truthy prevId then
        let numericPrevId := parseInt prevId in
        if negb (includes sameValueZero excluded2025QuestionIds numericPrevId)
        then (excluded2025QuestionIds ++ [numericPrevId])%list
        else excluded2025QuestionIds
      else excluded2025QuestionIds
  | None => excluded2025QuestionIds
  end.

(** The tables the handler touches. Rows are kept in table order. *)
Record Database := {
  questionWithAddedTime : list QuestionWithAddedTime;
  attempt : list Attempt;
  question : list Question;
  topic : list Topic;
}.

(** A [where] condition on a column: an undefined value puts no
    condition on it (Prisma's reading of [undefined]). *)
Definition columnIs (wanted : option string) (value : string) : bool :=
  match wanted with
  | None => true
  | Some w => String.eqb w value
  end.

(** The [where] of the [findFirst]: user, course, and
    [NOT: { questionId: { in: excluded2025QuestionIds } }]. *)
Definition whereClause (req : Request) (excluded : list number)
    (row : QuestionWithAddedTime) : bool :=
  columnIs (sessionUserId req) (userId row)
  && columnIs (queryCourseSlug req) (courseSlug row)
  && negb (includes sameValueZero excluded (Num (qat_questionId row))).

(** [orderBy: { addedTime: "desc" }] followed by taking the first row: the
    row with the greatest [addedTime]; among rows with equal times the
    one that comes first in table order is kept. *)
Definition newer (best : option QuestionWithAddedTime) (row : QuestionWithAddedTime)
    : option QuestionWithAddedTime :=
  match best with
  | None => Some row
  | Some b => if (addedTime b <? addedTime row)%Z then Some row else Some b
  end.

Definition newest (rows : list QuestionWithAddedTime) : option QuestionWithAddedTime :=
  fold_left newer rows None.

Definition findFirst (req : Request) (excluded : list number) (db : Database)
    : option QuestionWithAddedTime :=
  newest (List.filter (whereClause req excluded) (questionWithAddedTime db)).

(** The ids given to [in] have to be numbers: a NaN (a [prevId] that does
    not start with a number) is refused by Prisma's validation of the
    arguments, and the query is not run. *)
Definition validIds (excluded : list number) : bool :=
  negb (includes sameValueZero excluded NaN).

(** An instance has a matching Attempt when some Attempt refers to it. *)
Definition hasAttempt (db : Database) (row : QuestionWithAddedTime) : bool :=
  existsb (fun a => String.eqb (a_qatId a) (qatId row)) (attempt db).

(** The "current" instance of a user in a course, in the words of the
    data model: the most recent stored instance of that user and course
    with no matching Attempt. *)
Definition isCurrent (db : Database) (user slug : string)
    (row : QuestionWithAddedTime) : Prop :=
  row ∈ questionWithAddedTime db
  /\ userId row = user /\ courseSlug row = slug
  /\ hasAttempt db row = false
  /\ (forall r, r ∈ questionWithAddedTime db ->
                userId r = user -> courseSlug r = slug -> hasAttempt db r = false ->
                (addedTime r <= addedTime row)%Z).

(** The same database with another Attempt table. *)
Definition withAttempts (db : Database) (attempts : list Attempt) : Database :=
  {| questionWithAddedTime := questionWithAddedTime db;
     attempt := attempts;
     question := question db;
     topic := topic db |}.

(** A question together with [topic: { topicName }]. *)
Record QuestionWithTopic := {
  theQuestion : Question;
  theTopicName : string;
}.

(** [include: { question: { include: { topic: { select: { topicName } } } } }] *)
Definition includeQuestion (db : Database) (row : QuestionWithAddedTime)
    : option QuestionWithTopic :=
  match List.find (fun q => (questionId q =? qat_questionId row)%Z
                            && (variationId q =? qat_variationId row)%Z) (question db) with
  | Some q =>
      match List.find (fun t => String.eqb (topicSlug t) (q_topicSlug q)) (topic db) with
      | Some t => Some {| theQuestion := q; theTopicName := topicName t |}
      | None => None
      end
  | None => None
  end.

(** The data model's shape of a dynamic question: it stores no answer
    set, its answers are computed at evaluation time. The editor keeps it
    so: submitting a dynamic question sets [answers] to undefined. *)
Definition dynamicHasNoStoredAnswers (q : Question) : Prop :=
  variationId q = 0%Z ->
  forall qd, questionData q = Some qd -> answers qd = None.

(** The JSON body of the 200 response. *)
Record Served := {
  servedInstance : QuestionWithAddedTime;
  servedQuestion : option QuestionWithTopic;
}.

(** The calls the handler makes besides the lookup, in order. *)
Inductive Call :=
| CalledRecommendQuestion (courseSlug : option string) (arg : Z)
| CalledCustomEval (variables : option (list QVariable)) (methods : option (list Method))
| CalledCreate (row : QuestionWithAddedTime).

(** The handler's effects: it reads and extends the database and calls its
    collaborators; any step may throw. *)
Definition Handler (A : Type) : Type :=
  Database * list Call -> completion A * (Database * list Call).

Definition ret {A : Type} (a : A) : Handler A := fun st => (Return a, st).

Definition bind {A B : Type} (m : Handler A) (k : A -> Handler B) : Handler B :=
  fun st =>
    match m st with
    | (Return a, st') => k a st'
    | (Throw e, st') => (Throw e, st')
    end.

Notation "'let*' x ':=' m 'in' k" := (bind m (fun x => k))
  (at level 10, x name, m at level 100, k at level 200).

Definition throw {A : Type} (e : thrown) : Handler A := fun st => (Throw e, st).

Definition readDatabase : Handler Database := fun st => (Return (fst st), st).

Definition logged {A : Type} (c : Call) (result : completion A) : Handler A :=
  fun st => (result, (fst st, (snd st ++ [c])%list)).

(** [await prisma.questionWithAddedTime.findFirst(...)] *)
Definition findFirstM (req : Request) (excluded : list number)
    : Handler (option QuestionWithAddedTime) :=
  fun st =>
    if validIds excluded then (Return (findFirst req excluded (fst st)), st)
    else (Throw (Error "Invalid `prisma.questionWithAddedTime.findFirst()` invocation" None),
          st).

(** What one request gets from outside the handler: the random source,
    and the [cuid()] and [now()] defaults of a created row. *)
Record Env (Rand : Type) := {
  rnd : Rand;
  newQatId : string;
  now : Z;
}.
Arguments rnd {Rand} _.
Arguments newQatId {Rand} _.
Arguments now {Rand} _.

Section WithCollaborators.
(** The collaborators the handler imports. [Rand] is whatever random
    source they draw from. [RecommendQuestion] only reads the tables
    above. *)
Variable Rand : Type.
Variable RecommendQuestion :
  Database -> Rand -> option string -> Z -> completion (string * Question).
Variable CustomEval :
  Rand -> option (list QVariable) -> option (list Method) -> completion Evaluated.
Variable shuffleArray : Rand -> list Answer -> list Answer.

(** [prisma.questionWithAddedTime.create]: the user, the course and the
    answers are required columns; a missing one is rejected and no row
    is written. ([CustomMath.shuffleArray] of an undefined array never
    yields the required answers either.) *)
Definition create (env : Env Rand) (req : Request) (q : Question)
    (variables : option (list QVariable)) (answers : option (list Answer))
    : Handler QuestionWithAddedTime :=
  match sessionUserId req, queryCourseSlug req, answers with
  | Some uid, Some slug, Some answers =>
      let row :=
        {| qatId := newQatId env;
           qat_questionId := questionId q;
           qat_variationId := variationId q;
           userId := uid;
           courseSlug := slug;
           qat_variables := variables;
           qat_answers := shuffleArray (rnd env) answers;
           addedTime := now env |} in
      fun st =>
        (Return row,
         ({| questionWithAddedTime := (questionWithAddedTime (fst st) ++ [row])%list;
             attempt := attempt (fst st);
             question := question (fst st);
             topic := topic (fst st) |},
          (snd st ++ [CalledCreate row])%list))
  | _, _, _ => throw (Error "Invalid `prisma.questionWithAddedTime.create()` invocation" None)
  end.

(** The branch taken when the lookup finds nothing. *)
Definition recommendAndCreate (env : Env Rand) (req : Request) : Handler Served :=
  let* db := readDatabase in
  let* recommended :=
    logged (CalledRecommendQuestion (queryCourseSlug req) 0)
           (RecommendQuestion db (rnd env) (queryCourseSlug req) 0) in
  let '(recommendedTopicName, recommendedQuestion) := recommended in
  match questionData recommendedQuestion with
  | None => throw (Error "Cannot read properties of null (reading 'variables')" None)
  | Some questionData =>
      let* evaluatedQuestionData :=
        (if (variationId recommendedQuestion =? 0)%Z then
           let* r :=
             logged (CalledCustomEval (variables questionData) (methods questionData))
                    (CustomEval (rnd env) (variables questionData) (methods questionData)) in
           ret (Some r)
         else ret None) in
      let* row :=
        create env req recommendedQuestion
          (match evaluatedQuestionData with
           | Some r => Some (questionVariables r)
           | None => variables questionData
           end)
          (match answers questionData with
           | Some stored => Some stored
           | None => option_map questionAnswers evaluatedQuestionData
           end) in
      ret {| servedInstance := row;
             servedQuestion :=
               Some {| theQuestion := recommendedQuestion;
                       theTopicName := recommendedTopicName |} |}
  end.

Definition handlerM (env : Env Rand) (req : Request) : Handler Served :=
  let* found := findFirstM req (excludedQuestionIds (queryPrevId req)) in
  let* db := readDatabase in
  match found with
  | Some row =>
      ret {| servedInstance := row; servedQuestion := includeQuestion db row |}
  | None => recommendAndCreate env req
  end.

(** One request against a database: the response, the database after
    it, and the calls made. *)
Record Outcome := {
  response : completion Served;
  database : Database;
  calls : list Call;
}.

Definition handler (env : Env Rand) (req : Request) (db : Database) : Outcome :=
  let '(r, (db', cs)) := handlerM env req (db, []) in
  {| response := r; database := db'; calls := cs |}.

End WithCollaborators.

End Endpoint.

(** ** The admin question editor, [QuestionEditor] *)

Module Editor.
Import Schema Js.

(** *** The zod check of a method's [expr] *)

Definition isEquals (c : ascii) : bool := Ascii.eqb c "="%char.

(** [[^=]+$]: one or more characters, none of them "=", up to the end. *)
Fixpoint noEqualsToEnd (s : string) : bool :=
  match s with
  | EmptyString => true
  | String c rest => negb (isEquals c) && noEqualsToEnd rest
  end.

Definition rightSide (s : string) : bool :=
  match s with
  | EmptyString => false
  | String _ _ => noEqualsToEnd s
  end.

(** After at least one character of the left side: more of [[^=]+], then
    the "=" and the right side. The left side cannot hold an "=", so the
    first "=" met is the one of the pattern. *)
Fixpoint afterLeftSide (s : string) : bool :=
  match s with
  | EmptyString => false
  | String c rest => if isEquals c then rightSide rest else afterLeftSide rest
  end.

(** [/^[^=]+=[^=]+$/.test(s)] *)
Definition methodPattern (s : string) : bool :=
  match s with
  | EmptyString => false
  | String c rest => negb (isEquals c) && afterLeftSide rest
  end.

(** [z.string().trim().regex(/^[^=]+=[^=]+$/).min(1)] on [expr]: the
    messages of the checks that fail, on the trimmed text. *)
Definition exprIssues (expr : string) : list string :=
  let t := trim expr in
  ((if methodPattern t then [] else ["Invalid expression"])
   ++ (if (1 <=? String.length t)%nat then [] else ["Cannot be empty"]))%list.

(** The number of "=" in a text. *)
Fixpoint countEquals (s : string) : nat :=
  match s with
  | EmptyString => 0
  | String c rest => ((if isEquals c then 1 else 0) + countEquals rest)%nat
  end.

(** *** Picking the variation id of a new static variation *)

(** [variationIds.reduce((acc, curr) => { if (curr > acc &&
    !variationIds.includes(acc)) return acc; return curr + 1; }, 1)];
    the source comments it "Get the smallest id not already used (in case
    of gaps)". *)
Definition nextCandidate (variationIds : list Z) (acc curr : Z) : Z :=
  if (curr >? acc)%Z && negb (includes Z.eqb variationIds acc)
  then acc
  else (curr + 1)%Z.

Definition unusedVariationId (variationIds : list Z) : Z :=
  fold_left (nextCandidate variationIds) variationIds 1%Z.

(** [n] is the smallest id, counting from 1, that [variationIds] does not
    use. *)
Definition smallestUnused (variationIds : list Z) (n : Z) : Prop :=
  (1 <= n)%Z /\ (n ∉ variationIds) /\ (forall k, (1 <= k < n)%Z -> k ∈ variationIds).

(** [onChange] of the Base Question select: the value given to the form's
    [variationId]; [None] is [undefined] (the questions are not loaded). *)
Definition baseQuestionChanged (questions : option (list Question))
    (value : option string) : option Z :=
  match value with
  | Some v =>
      if truthy v then
        option_map
          (fun qs =>
             unusedVariationId
               (map variationId
                  (List.filter (fun q => strictEquals (Num (questionId q)) (parseInt v)) qs)))
          questions
      else Some 1%Z
  | None => Some 1%Z
  end.

(** *** The preview, [handlePreviewChange] *)

Inductive QuestionType := dynamic | static.

Inductive Toast :=
| ToastWarning (text : string)
| ToastSuccess (text : string)
| ToastFailure (text : string)
| ToastRandomized
| ToastInvalidMethod (message : string) (index : Z) (expr sanitized encoded : string).

(** The object the catch branch reads out of the error's message. *)
Record ErrorPayload := {
  ep_message : string;
  ep_index : Z;
  ep_expr : string;
  ep_sanitized : string;
  ep_encoded : string;
}.

(** The part of the editor the preview reads and writes. [methodIssues]
    is what [form.validate()] reports for the methods, by position. *)
Record EditorState := {
  questionType : QuestionType;
  formVariables : option (list QVariable);
  formMethods : option (list Method);
  methodIssues : list (list string);
  preview : string;
  finalAnsPreview : string;
  toasts : list Toast;
}.

Definition previewMessage : string := "\text{Refresh to View Variables}".
Definition previewFinalAnsMessage : string := "\text{Refresh to View Final Answers}".
Definition invalidMessage : string := "\text{Invalid Variables or Methods}".

Definition unitText (unit : option string) : string :=
  match unit with
  | Some u => if truthy u then "~(" ++ u ++ ")" else ""
  | None => ""
  end.

Definition variableLine (item : QVariable) : string :=
  name item ++ " " ++ unitText (unit item) ++ " &= " ++ interpolate (default_ item).

Definition answerLine (item : EditorAnswer) : string :=
  ea_name item ++ " " ++ unitText (ea_unit item) ++ " &= " ++ ea_answerContent item
  ++ " ~|~ " ++ join "~|~" (incorrectAnswers item).

Definition trimName (v : QVariable) : QVariable :=
  {| name := trim (name v); randomize := randomize v; isFinalAnswer := isFinalAnswer v;
     unit := unit v; default_ := default_ v; min := min v; max := max v;
     decimalPlaces := decimalPlaces v; step := step v |}.

Definition withPreview (st : EditorState) (variables : option (list QVariable))
    (issues : list (list string)) (p f : string) (t : Toast) : EditorState :=
  {| questionType := questionType st;
     formVariables := variables;
     formMethods := formMethods st;
     methodIssues := issues;
     preview := p;
     finalAnsPreview := f;
     toasts := (toasts st ++ [t])%list |}.

Section WithEvaluator.
Variable Rand : Type.
Variable CustomEval :
  Rand -> option (list QVariable) -> option (list Method) -> bool -> completion Evaluated.
Variable JSON_parse : string -> completion ErrorPayload.

(** The catch branch: what is thrown is reported, not rethrown; only
    [JSON.parse] can throw from here. *)
Definition reportFailure (st : EditorState) (variables : option (list QVariable))
    (issues : list (list string)) (e : thrown) : completion EditorState :=
  match e with
  | Error message (Some "invalid-methods") =>
      match JSON_parse message with
      | Return error =>
          Return (withPreview st variables issues invalidMessage invalidMessage
                    (ToastInvalidMethod (ep_message error) (ep_index error)
                       (ep_expr error) (ep_sanitized error) (ep_encoded error)))
      | Throw e' => Throw e'
      end
  | Error message _ =>
      Return (withPreview st variables issues invalidMessage invalidMessage
                (ToastFailure message))
  | NonError _ =>
      Return (withPreview st variables issues invalidMessage invalidMessage
                (ToastFailure "Unknown Error"))
  end.

Definition handlePreviewChange (rnd : Rand) (toRandomize : bool) (st : EditorState)
    : completion EditorState :=
  let issues := map (fun m => exprIssues (expr m)) (default [] (formMethods st)) in
  let variables := option_map (map trimName) (formVariables st) in
  match questionType st with
  | static =>
      match variables with
      | Some (v :: vs) =>
          Return (withPreview st variables issues
                    (join "\\" (map variableLine
                                 (List.filter (fun item => negb (isFinalAnswer item)) (v :: vs))))
                    (finalAnsPreview st)
                    (ToastSuccess "Preview Updated!"))
      | _ =>
          Return (withPreview st variables issues
                    "\text{No variables specified}"
                    (finalAnsPreview st)
                    (ToastWarning "No variables specified. Just make sure they are part of the question content when you are building static questions."))
      end
  | dynamic =>
      match CustomEval rnd variables (formMethods st) toRandomize with
      | Return evaluated =>
          Return (withPreview st variables issues
                    (join "\\" (map variableLine (questionVariables evaluated)))
                    (join "\\" (map answerLine (editorAnswers evaluated)))
                    (if toRandomize then ToastRandomized
                     else ToastSuccess "Preview Updated!"))
      | Throw e => reportFailure st variables issues e
      end
  end.

End WithEvaluator.

End Editor.

(** ** The expression evaluator, [CustomEval] *)

Module Evaluator.
Import Schema Js Editor.

Section Evaluation.
(** The arithmetic of the expression language is left open: [Values] is
    the set of names defined so far with their values, [assign]
    evaluates one well-shaped assignment and either extends the values
    or explains why it cannot (an undefined name, a division by zero, a
    domain error). [firstIndex] is the index given to the first method. *)
Variable Rand : Type.
Variable Values : Type.
Variable resolveVariables : Rand -> bool -> list QVariable -> Values.
Variable sanitize : string -> string.
Variable substitute : Values -> string -> string.
Variable assign : Values -> string -> string + Values.
Variable materialize : Rand -> Values -> list QVariable -> Evaluated.
Variable JSON_stringify : ErrorPayload -> string.
Variable firstIndex : Z.

Definition malformedMessage : string := "Expression must have exactly one equals sign".

(** Modelled from the spec: the EvaluationError of section 4.1, which is
    not in the source given; it carries the offending method index and
    both the sanitized and the substituted form of the expression, in
    the shape the editor's catch branch reads (an [Error] whose cause is
    "invalid-methods" and whose message is the JSON text of the fields). *)
Definition evaluationError (index : Z) (message expr sanitized encoded : string) : thrown :=
  Error
    (JSON_stringify
       {| ep_message := message; ep_index := index; ep_expr := expr;
          ep_sanitized := sanitized; ep_encoded := encoded |})
    (Some "invalid-methods").

(** Modelled from the spec: one method of section 4.1, which is not in
    the source given; an expression that does not have exactly one "="
    is malformed, any other is evaluated on its substituted form. *)
Definition evaluateMethod (index : Z) (values : Values) (m : Method) : completion Values :=
  let sanitized := sanitize (expr m) in
  let encoded := substitute values sanitized in
  if negb (countEquals (expr m) =? 1)%nat then
    Throw (evaluationError index malformedMessage (expr m) sanitized encoded)
  else
    match assign values encoded with
    | inl message => Throw (evaluationError index message (expr m) sanitized encoded)
    | inr values' => Return values'
    end.

(** Modelled from the spec: the evaluation order of section 4.1, which is
    not in the source given; methods are evaluated strictly in
    declaration order and the first failure ends the evaluation. *)
Fixpoint evaluateMethods (index : Z) (values : Values) (methods : list Method)
    : completion Values :=
  match methods with
  | [] => Return values
  | m :: rest =>
      match evaluateMethod index values m with
      | Return values' => evaluateMethods (index + 1)%Z values' rest
      | Throw e => Throw e
      end
  end.

(** Modelled from the spec: [evaluate(variables, methods, randomize)] of
    sections 4.1 and 6, whose source file [utils/CustomEval] is not
    given; it yields the resolved variables and answers, or the
    EvaluationError. *)
Definition CustomEval (rnd : Rand) (variables : option (list QVariable))
    (methods : option (list Method)) (toRandomize : bool) : completion Evaluated :=
  let values := resolveVariables rnd toRandomize (default [] variables) in
  match evaluateMethods firstIndex values (default [] methods) with
  | Return values' => Return (materialize rnd values' (default [] variables))
  | Throw e => Throw e
  end.

End Evaluation.

End Evaluator.

(** ** The mastery model *)

Module MasteryModel.
Import Schema.

(** A [prisma.mastery.create] that gives the key and, optionally, the
    mastery level: every column left out takes its [@default] of the
    schema. *)
Definition createMastery (user slug : string) (level : option Q) : Mastery :=
  {| m_userId := user;
     m_topicSlug := slug;
     masteryLevel := default masteryLevel_default level;
     topicPing := topicPing_default;
     lastFlagged := None;
     errorMeter := errorMeter_default;
     weeklyMasteryLevel := weeklyMasteryLevel_default;
     fortnightlyMasteryLevel := fortnightlyMasteryLevel_default |}.

(** A topic created without a prior takes [@default(0.25)]. *)
Definition createTopic (slug name : string) (level : Level) (prior : option Q) : Topic :=
  {| topicSlug := slug; topicName := name; topicLevel := level;
     topicPrior := default topicPrior_default prior |}.

(** Modelled from the spec: [initialize(topic)] of section 4.2, whose
    source is not given; if no record exists for the user and the topic,
    one is created with mastery = topic.prior, errorMeter = 0 and
    flagged = false; an existing record is left as it is. The table is
    keyed by its [@@id([userId, topicSlug])]. *)
Definition initialize (user : string) (t : Topic)
    (masteries : gmap (string * string) Mastery) : gmap (string * string) Mastery :=
  match masteries !! (user, topicSlug t) with
  | Some _ => masteries
  | None =>
      <[(user, topicSlug t) := createMastery user (topicSlug t) (Some (topicPrior t))]>
        masteries
  end.

End MasteryModel.

(** ** Shuffling, [CustomMath.shuffleArray] *)

Module CustomMath.

(** Modelled from the spec: the shuffle of section 4.3 step 4, whose
    source file [utils/CustomMath] is not given; a random permutation
    built by drawing the next element among those left. A draw [d] stands
    for [Math.floor(Math.random() * n)] and is reduced modulo the number
    [n] of elements left; when the draws run out the rest keeps its order. *)
Fixpoint shuffleArray {A : Type} (draws : list nat) (arr : list A) : list A :=
  match draws with
  | [] => arr
  | d :: draws' =>
      match arr !! (d mod length arr)%nat with
      | Some x => x :: shuffleArray draws' (delete (d mod length arr)%nat arr)
      | None => arr
      end
  end.

End CustomMath.

(** ** A self-delimiting text form of the error fields

    The evaluator and the editor agree on the text of an error through
    [JSON.stringify] and [JSON.parse]; all that is used of them is that
    parsing gives back what was written. [Wire] is a small codec with that
    property, used where a concrete pair is needed. *)

Module Wire.
Import Editor.

(** A length in unary: [n] times "1", then "0", then what follows. *)
Fixpoint putOnes (n : nat) (tail : string) : string :=
  match n with
  | O => String "0" tail
  | S n' => String "1" (putOnes n' tail)
  end.

(** A field is written as its length in unary, then its characters. *)
Definition putField (s tail : string) : string :=
  putOnes (String.length s) (s ++ tail).

Fixpoint readOnes (s : string) (n : nat) : option (nat * string) :=
  match s with
  | String "1" rest => readOnes rest (S n)
  | String "0" rest => Some (n, rest)
  | _ => None
  end.

Fixpoint readChars (n : nat) (s : string) : option (string * string) :=
  match n with
  | O => Some (EmptyString, s)
  | S n' =>
      match s with
      | String c rest =>
          match readChars n' rest with
          | Some (field, rest') => Some (String c field, rest')
          | None => None
          end
      | EmptyString => None
      end
  end.

Definition readField (s : string) : option (string * string) :=
  match readOnes s 0 with
  | Some (n, rest) => readChars n rest
  | None => None
  end.

Definition putIndex (z : Z) (tail : string) : string :=
  String (if (z <? 0)%Z then "-" else "+")%char (putOnes (Z.abs_nat z) tail).

Definition readIndex (s : string) : option (Z * string) :=
  match s with
  | String sign rest =>
      match readOnes rest 0 with
      | Some (n, rest') =>
          Some (if Ascii.eqb sign "-" then (- Z.of_nat n)%Z else Z.of_nat n, rest')
      | None => None
      end
  | EmptyString => None
  end.

Definition stringify (p : ErrorPayload) : string :=
  putField (ep_message p)
    (putIndex (ep_index p)
       (putField (ep_expr p)
          (putField (ep_sanitized p)
             (putField (ep_encoded p) "")))).

Definition parse (s : string) : Js.completion ErrorPayload :=
  match readField s with
  | Some (message, s1) =>
      match readIndex s1 with
      | Some (index, s2) =>
          match readField s2 with
          | Some (expr, s3) =>
              match readField s3 with
              | Some (sanitized, s4) =>
                  match readField s4 with
                  | Some (encoded, _) =>
                      Js.Return {| ep_message := message; ep_index := index; ep_expr := expr;
                                   ep_sanitized := sanitized; ep_encoded := encoded |}
                  | None => Js.Throw (Js.Error "Unexpected end of JSON input" None)
                  end
              | None => Js.Throw (Js.Error "Unexpected end of JSON input" None)
              end
          | None => Js.Throw (Js.Error "Unexpected end of JSON input" None)
          end
      | None => Js.Throw (Js.Error "Unexpected end of JSON input" None)
      end
  | None => Js.Throw (Js.Error "Unexpected end of JSON input" None)
  end.

End Wire.

(** ** Concrete data: a small course, its questions and learners *)

Module Scenario.
Import Schema Js Endpoint.

Definition option1 : Answer :=
  {| key := "k1"; answerContent := "12 V"; isCorrect := true; isLatex := false |}.
Definition option2 : Answer :=
  {| key := "k2"; answerContent := "12000 mV"; isCorrect := true; isLatex := false |}.
Definition option3 : Answer :=
  {| key := "k3"; answerContent := "6 V"; isCorrect := false; isLatex := false |}.
Definition option4 : Answer :=
  {| key := "k4"; answerContent := "24 V"; isCorrect := false; isLatex := false |}.

Definition fourOptions : list Answer := [option1; option2; option3; option4].

Definition computed1 : Answer :=
  {| key := "c1"; answerContent := "3.5"; isCorrect := true; isLatex := true |}.
Definition computed2 : Answer :=
  {| key := "c2"; answerContent := "7.0"; isCorrect := false; isLatex := true |}.

Definition voltage : QVariable :=
  {| name := "V"; randomize := true; isFinalAnswer := false; unit := Some "V";
     default_ := Some "12"; min := Some 1%Q; max := Some 24%Q;
     decimalPlaces := Some 0%Z; step := Some 1%Q |}.

Definition sampledVoltage : QVariable :=
  {| name := "V"; randomize := true; isFinalAnswer := false; unit := Some "V";
     default_ := Some "7"; min := Some 1%Q; max := Some 24%Q;
     decimalPlaces := Some 0%Z; step := Some 1%Q |}.

Definition halve : Method := {| expr := "I = V / 2"; explanation := None |}.

Definition mkQuestion (id variation : Z) (data : QuestionData) : Question :=
  {| questionId := id; variationId := variation; q_topicSlug := "ohms-law";
     questionTitle := "Voltage across a resistor"; questionDifficulty := Medium;
     questionContent := "<p>Find the voltage.</p>";
     questionData := Some data; lastModified := 0 |}.

(** A static question: fixed answers, no methods. *)
Definition staticData : QuestionData :=
  {| variables := None; methods := None; hints := None; answers := Some fourOptions |}.

(** A dynamic question as the editor saves it: no stored answers. *)
Definition dynamicData : QuestionData :=
  {| variables := Some [voltage]; methods := Some [halve]; hints := None; answers := None |}.

(** A dynamic question that also carries a stored answer set. *)
Definition dynamicDataWithAnswers : QuestionData :=
  {| variables := Some [voltage]; methods := Some [halve]; hints := None;
     answers := Some fourOptions |}.

Definition question5 : Question := mkQuestion 5 1 staticData.
Definition question7 : Question := mkQuestion 7 1 staticData.
Definition question7v2 : Question := mkQuestion 7 2 staticData.
Definition question89 : Question := mkQuestion 89 1 staticData.
Definition question12 : Question := mkQuestion 12 0 dynamicData.
Definition question13 : Question := mkQuestion 13 0 dynamicDataWithAnswers.

Definition ohmsLaw : Topic :=
  {| topicSlug := "ohms-law"; topicName := "Ohm's Law"; topicLevel := Foundational;
     topicPrior := topicPrior_default |}.

Definition mkRow (id : string) (q : Question) (user : string) (time : Z)
    : QuestionWithAddedTime :=
  {| qatId := id; qat_questionId := questionId q; qat_variationId := variationId q;
     userId := user; courseSlug := "welcome-quiz"; qat_variables := None;
     qat_answers := fourOptions; addedTime := time |}.

Definition mkAttempt (id : string) (row : QuestionWithAddedTime) (time : Z) : Attempt :=
  {| attemptId := id; a_qatId := qatId row; a_userId := userId row;
     a_courseSlug := courseSlug row; attemptedKeys := ["k1"; "k2"]; a_isCorrect := true;
     submittedAt := time |}.

Definition allQuestions : list Question :=
  [question5; question7; question89; question12; question13].

Definition emptyDatabase : Database :=
  {| questionWithAddedTime := []; attempt := []; question := allQuestions; topic := [ohmsLaw] |}.

(** Ann answered question 5 at time 10 and was then given question 89 at
    time 20, which she has not answered. *)
Definition annRow5 : QuestionWithAddedTime := mkRow "qat-a5" question5 "ann" 10.
Definition annRow89 : QuestionWithAddedTime := mkRow "qat-a89" question89 "ann" 20.

Definition annDatabase : Database :=
  {| questionWithAddedTime := [annRow5; annRow89];
     attempt := [mkAttempt "att-1" annRow5 11];
     question := allQuestions; topic := [ohmsLaw] |}.

(** Bob's only instance is of question 7, which he has answered. *)
Definition bobRow7 : QuestionWithAddedTime := mkRow "qat-b7" question7 "bob" 10.

Definition bobDatabase : Database :=
  {| questionWithAddedTime := [bobRow7];
     attempt := [mkAttempt "att-2" bobRow7 11];
     question := allQuestions; topic := [ohmsLaw] |}.

Definition requestOf (user : string) (prevId : option string) : Request :=
  {| sessionUserId := Some user; queryCourseSlug := Some "welcome-quiz";
     queryPrevId := prevId |}.

Definition env0 : Env (list nat) :=
  {| rnd := [3; 1; 4; 1; 5]%nat; newQatId := "qat-new"; now := 30 |}.

(** A recommender that always proposes the same question. *)
Definition recommendAlways (q : Question)
    : Database -> list nat -> option string -> Z -> completion (string * Question) :=
  fun _ _ _ _ => Return ("Ohm's Law", q).

Definition evaluated0 : Evaluated :=
  {| questionVariables := [sampledVoltage];
     questionAnswers := [computed1; computed2];
     editorAnswers := [] |}.

(** An evaluator that always succeeds with the same result. *)
Definition evalAlways (r : Evaluated)
    : list nat -> option (list QVariable) -> option (list Method) -> completion Evaluated :=
  fun _ _ _ => Return r.

Definition shuffle : list nat -> list Answer -> list Answer := CustomMath.shuffleArray.

(** An editor on a dynamic question whose second method has two "=". *)
Definition power : Method := {| expr := "P == V * I"; explanation := None |}.

Definition editorState : Editor.EditorState :=
  {| Editor.questionType := Editor.dynamic;
     Editor.formVariables := Some [voltage];
     Editor.formMethods := Some [halve; power];
     Editor.methodIssues := [];
     Editor.preview := Editor.previewMessage;
     Editor.finalAnsPreview := Editor.previewFinalAnsMessage;
     Editor.toasts := [] |}.

(** A stand-in for the arithmetic: the values are the names declared,
    expressions are kept as they are, and every assignment succeeds. *)
Definition declaredNames (_ : list nat) (_ : bool) (vs : list QVariable) : list string :=
  map name vs.
Definition keepText (_ : list string) (text : string) : string := text.
Definition assignAlways (values : list string) (_ : string) : string + list string :=
  inr values.
Definition materialize0 (_ : list nat) (_ : list string) (_ : list QVariable) : Evaluated :=
  evaluated0.

Definition editorEval
    : list nat -> option (list QVariable) -> option (list Method) -> bool ->
      completion Evaluated :=
  Evaluator.CustomEval (list nat) (list string) declaredNames Js.trim keepText
    assignAlways materialize0 Wire.stringify 1.

(** What the quiz page holds after it fetched question 5. *)
Definition ucqat5 : Quiz.UcqatData :=
  {| Quiz.instance := mkRow "qat-new" question5 "ann" 30;
     Quiz.question := question5;
     Quiz.questionTopicName := "Ohm's Law" |}.

Definition answerBoth : Quiz.Answered :=
  {| Quiz.keys := ["k1"; "k2"]; Quiz.next := Some ucqat5 |}.

End Scenario.

(** ** The verification-token adapter, [VerificationTokenFixAdapter] *)

Module Adapter.

(** [model VerificationToken]: [token] is unique, and so is the pair
    [(identifier, token)]. *)
Record VerificationToken := {
  identifier : string;
  token : string;
  expires : Z;
}.

(** What a Prisma call can fail with: a known request error carries a code
    (P2002 for a unique constraint, P2025 for a missing record). *)
Record PrismaError := {
  code : option string;
  errorMessage : string;
}.

Inductive outcome (A : Type) :=
| Ok (a : A)
| Failed (e : PrismaError).
Arguments Ok {A} a.
Arguments Failed {A} e.

(** [prisma.verificationToken.deleteMany({ where: { identifier } })] *)
Definition deleteMany (who : string) (table : list VerificationToken)
    : list VerificationToken :=
  List.filter (fun t => negb (String.eqb (identifier t) who)) table.

(** [prisma.verificationToken.create({ data })]: refused with P2002 when the
    token is already stored; the table is then left as it is. *)
Definition create (data : VerificationToken) (table : list VerificationToken)
    : outcome VerificationToken * list VerificationToken :=
  if existsb (fun t => String.eqb (token t) (token data)) table
  then (Failed {| code := Some "P2002";
                  errorMessage := "Unique constraint failed on the fields: (`token`)" |},
        table)
  else (Ok data, (table ++ [data])%list).

(** [createVerificationToken(data)]: the tokens of the identifier are
    deleted, then the new one is created; the two calls are not in a
    transaction. *)
Definition createVerificationToken (data : VerificationToken)
    (table : list VerificationToken)
    : outcome VerificationToken * list VerificationToken :=
  create data (deleteMany (identifier data) table).

(** [prisma.verificationToken.findUnique({ where: { identifier_token } })] *)
Definition findUnique (who tok : string) (table : list VerificationToken)
    : option VerificationToken :=
  List.find (fun t => String.eqb (identifier t) who && String.eqb (token t) tok) table.

(** The [try]/[catch] of [useVerificationToken] around the outcome of the
    query: P2025 becomes [null], any other error is thrown again. *)
Definition orNullWhenMissing (queried : outcome (option VerificationToken))
    : outcome (option VerificationToken) :=
  match queried with
  | Ok found => Ok found
  | Failed e =>
      match code e with
      | Some "P2025" => Ok None
      | _ => Failed e
      end
  end.

(** [useVerificationToken(identifier_token)]: the token is looked up and
    not deleted. *)
Definition useVerificationToken (who tok : string) (table : list VerificationToken)
    : outcome (option VerificationToken) * list VerificationToken :=
  (orNullWhenMissing (Ok (findUnique who tok table)), table).

End Adapter.

(** ** Inviting a user, [pages/api/auth/addUser.ts] *)

Module AddUser.
Import Js.

Inductive Role := SUPERUSER | ADMIN | USER.
Inductive Frequency := Daily | Weekly | Fortnightly | Monthly | Never.

(** [model User]: [id], [username] and [email] are each unique. *)
Record User := {
  id : string;
  username : string;
  email : string;
  emailVerified : option Z;
  isNewUser : bool;
  image : option string;
  role : Role;
  name : option string;
  nusnetId : option string;
  consentDate : option Z;
  lastActive : Z;
  loginStreak : Z;
  points : Z;
  emailFrequency : Frequency;
}.

(** The [cuid()] and [now()] defaults of a created user. *)
Record Env := {
  newId : string;
  now : Z;
}.

Record Body := {
  message : string;
  customIcon : string;
  addedToUsers : bool;
}.

(** [prisma.user.findFirst({ where: { email } })]: an undefined email puts
    no condition, and the first user of the table is found. *)
Definition findFirst (wanted : option string) (users : list User) : option User :=
  List.find (fun u => Endpoint.columnIs wanted (email u)) users.

(** The user the [create] of the upsert writes: the fields given, and the
    [@default] of every other column. *)
Definition invited (env : Env) (e : string) : User :=
  {| id := newId env;
     username := e;
     email := e;
     emailVerified := None;
     isNewUser := true;
     image := None;
     role := USER;
     name := None;
     nusnetId := None;
     consentDate := None;
     lastActive := now env;
     loginStreak := 0;
     points := 0;
     emailFrequency := Daily |}.

(** [prisma.user.upsert({ where: { email }, update: {}, create })]: the
    unique [where] needs a value; a user with the email is left as it is;
    otherwise the user is created, unless its id or username is taken. *)
Definition upsert (env : Env) (wanted : option string) (users : list User)
    : completion User * list User :=
  match wanted with
  | None =>
      (Throw (Error "Invalid `prisma.user.upsert()` invocation" None), users)
  | Some e =>
      match List.find (fun u => String.eqb (email u) e) users with
      | Some u => (Return u, users)
      | None =>
          if existsb (fun u => String.eqb (username u) e || String.eqb (id u) (newId env))
               users
          then (Throw (Error "Unique constraint failed" None), users)
          else (Return (invited env e), (users ++ [invited env e])%list)
      end
  end.

(** The handler: the response (status and body, or what was thrown) and the
    table after it. *)
Definition handler (env : Env) (queryEmail : option string) (users : list User)
    : completion (Z * Body) * list User :=
  match findFirst queryEmail users with
  | Some _ =>
      (Return (200%Z,
               {| message := "Email already invited, please check your inbox and junk mail!";
                  customIcon := "📫";
                  addedToUsers := false |}),
       users)
  | None =>
      match upsert env queryEmail users with
      | (Return _, users') =>
          (Return (201%Z,
                   {| message := "Added to users!";
                      customIcon := "🎉";
                      addedToUsers := true |}),
           users')
      | (Throw e, users') => (Throw e, users')
      end
  end.

(** The answer to an email that is already there. *)
Definition alreadyInvited : Z * Body :=
  (200%Z,
   {| message := "Email already invited, please check your inbox and junk mail!";
      customIcon := "📫";
      addedToUsers := false |}).

(** The unique columns hold distinct values. *)
Definition uniqueColumns (users : list User) : Prop :=
  NoDup (map id users) /\ NoDup (map username users) /\ NoDup (map email users).

End AddUser.

(** ** The course list, [CoursesPage], and the welcome page *)

Module Courses.
Import Schema.

Inductive CourseType := Content | Quiz.

(** [model Course] with its topics, [CourseWithMediaAndTopicType] (the
    media are not read by the page). *)
Record Course := {
  courseSlug : string;
  courseName : string;
  courseDescription : string;
  courseImage : string;
  courseLevel : Level;
  type : CourseType;
  moduleCode : string;
  moduleTitle : string;
  week : option Z;
  studio : option Z;
  video : option string;
  markdown : option string;
  topics : list Topic;
}.

(** [a === b] on the two enums. *)
Definition sameLevel (a b : Level) : bool :=
  match a, b with
  | Foundational, Foundational | Intermediate, Intermediate | Advanced, Advanced => true
  | _, _ => false
  end.

Definition sameType (a b : CourseType) : bool :=
  match a, b with
  | Content, Content | Quiz, Quiz => true
  | _, _ => false
  end.

Definition isLessThan (c : ascii) : bool := Ascii.eqb c "<"%char.
Definition isGreaterThan (c : ascii) : bool := Ascii.eqb c ">"%char.

(** [[^>]+] can start here: the next character exists and is not ">". *)
Definition startsRun (s : string) : bool :=
  match s with
  | EmptyString => false
  | String c _ => negb (isGreaterThan c)
  end.

(** What follows a "<" lets [\/?[^>]+(>|$)] match: the optional "/" is
    tried first, then the match without it. Once the run of characters
    other than ">" has started it extends to the next ">" or to the end, so
    the last group always matches. *)
Definition opensTag (rest : string) : bool :=
  match rest with
  | String "/" afterSlash => startsRun afterSlash
  | _ => false
  end
  || startsRun rest.

(** [s.replace(/<\/?[^>]+(>|$)/g, "")], read from left to right: outside a
    match a character is kept unless it is a "<" that opens a match; inside
    a match characters are dropped up to and including the next ">". *)
Fixpoint strip (inTag : bool) (s : string) : string :=
  match s with
  | EmptyString => EmptyString
  | String c rest =>
      if inTag then
        if isGreaterThan c then strip false rest else strip true rest
      else if isLessThan c && opensTag rest then strip true rest
      else String c (strip false rest)
  end.

Definition stripTags (s : string) : string := strip false s.

(** The text holds a "<" directly followed by a character other than ">":
    a place where the pattern matches. *)
Fixpoint hasTag (s : string) : bool :=
  match s with
  | EmptyString => false
  | String c rest => (isLessThan c && startsRun rest) || hasTag rest
  end.

(** A number or [null] inside a template literal. *)
Definition showNumber (n : option Z) : string :=
  match n with
  | Some z => NilZero.string_of_int (Z.to_int z)
  | None => "null"
  end.

Record BadgeCardProps := {
  slug : string;
  image : string;
  title : string;
  category : string;
  description : string;
  badges : list string;
}.

(** The link of a card. *)
Definition href (slug : string) : string :=
  if String.eqb slug "welcome-quiz" then "/quiz?courseSlug=welcome-quiz"
  else "/courses/" ++ slug.

Definition card (category : string) (course : Course) : BadgeCardProps :=
  {| slug := courseSlug course;
     image := courseImage course;
     title := courseName course;
     category := category;
     description := stripTags (courseDescription course);
     badges := map topicSlug (topics course) |}.

Definition weekAndStudio (course : Course) : string :=
  "W" ++ showNumber (week course) ++ "S" ++ showNumber (studio course).

(** The courses of the Quizzes carousel. *)
Definition quizCourses (courses : list Course) : list Course :=
  List.filter (fun course => sameType (type course) Quiz) courses.

(** The courses of the carousel of a level. *)
Definition contentCourses (level : Level) (courses : list Course) : list Course :=
  List.filter
    (fun course => sameLevel (courseLevel course) level && sameType (type course) Content)
    courses.

Record Page := {
  quizzes : list BadgeCardProps;
  foundational : list BadgeCardProps;
  intermediate : list BadgeCardProps;
  advanced : list BadgeCardProps;
}.

(** What [CoursesPage] shows: [None] is the loader. *)
Definition render (courses : option (list Course)) : option Page :=
  match courses with
  | None => None
  | Some data =>
      Some {| quizzes := map (card "QUIZ") (quizCourses data);
              foundational :=
                map (fun c => card (weekAndStudio c) c) (contentCourses Foundational data);
              intermediate :=
                map (fun c => card (weekAndStudio c) c) (contentCourses Intermediate data);
              advanced :=
                map (fun c => card (weekAndStudio c) c) (contentCourses Advanced data) |}
  end.

(** The welcome page: the topics of the card of a level,
    [topics.filter((topic) => topic.topicLevel === TopicLevel.X)]. *)
Definition topicsOfLevel (level : Level) (topics : list Topic) : list Topic :=
  List.filter (fun topic => sameLevel (topicLevel topic) level) topics.

(** A description written as plain text and tags. *)
Inductive Piece :=
| Plain (text : string)
| Tag (body : string).

Definition noLessThan (s : string) : Prop := forall c, In c (list_ascii_of_string s) -> isLessThan c = false.
Definition noGreaterThan (s : string) : Prop := forall c, In c (list_ascii_of_string s) -> isGreaterThan c = false.

(** Plain text holds no "<"; the body of a tag is not empty and holds no
    ">". *)
Definition wellFormed (p : Piece) : Prop :=
  match p with
  | Plain text => noLessThan text
  | Tag body => body <> "" /\ noGreaterThan body
  end.

Fixpoint markup (pieces : list Piece) : string :=
  match pieces with
  | [] => ""
  | Plain text :: rest => text ++ markup rest
  | Tag body :: rest => "<" ++ body ++ ">" ++ markup rest
  end.

Fixpoint plainText (pieces : list Piece) : string :=
  match pieces with
  | [] => ""
  | Plain text :: rest => text ++ plainText rest
  | Tag _ :: rest => plainText rest
  end.

End Courses.

(** ** Choosing an answer on the quiz page *)

Module QuizForm.
Import Schema Quiz.

(** What the radio group logs when an option is picked:
    [value === answerOptions.find((item) => item.isCorrect)?.key]. *)
Definition radioLogged (answerOptions : list Answer) (value : string) : bool :=
  match List.find isCorrect answerOptions with
  | Some item => String.eqb value (key item)
  | None => false
  end.

(** What the checkbox group logs when the ticked options change. *)
Definition checkboxLogged (answerOptions : list Answer) (values : list string) : bool :=
  isCorrectSelection values (correctKeys answerOptions).

(** The group rendered: a radio group when exactly one option is correct. *)
Definition isRadio (answerOptions : list Answer) : bool :=
  (length (correctKeys answerOptions) =? 1)%nat.

End QuizForm.

(** ** The editor's form: variables, title and answers *)

Module EditorForm.
Import Schema Js Editor.

(** A variable of the form: the fields of a variable, with the [key] and
    [encoded] strings it got when it was added. *)
Record FormVariable := {
  itemKey : string;
  encoded : string;
  item : QVariable;
}.

Definition withItem (f : QVariable -> QVariable) (v : FormVariable) : FormVariable :=
  {| itemKey := itemKey v; encoded := encoded v; item := f (item v) |}.

(** The part of the form the controls below write. *)
Record Form := {
  questionType : QuestionType;
  variationId : Z;
  baseQuestionId : option string;
  variables : option (list FormVariable);
}.

Definition withVariables (form : Form) (vs : option (list FormVariable)) : Form :=
  {| questionType := questionType form; variationId := variationId form;
     baseQuestionId := baseQuestionId form; variables := vs |}.

(** The fields the Set Final Answer button writes, from the item as it was
    rendered. *)
Definition finalAnswerClicked (old : QVariable) : QVariable :=
  {| name := name old;
     randomize := false;
     isFinalAnswer := negb (isFinalAnswer old);
     unit := unit old;
     default_ := None;
     min := if isFinalAnswer old then None else Some (-90)%Q;
     max := if isFinalAnswer old then None else Some 90%Q;
     decimalPlaces := if isFinalAnswer old then None else Some 3%Z;
     step := if isFinalAnswer old then None else Some 20%Q |}.

(** The field the Randomize button writes. *)
Definition randomizeClicked (old : QVariable) : QVariable :=
  {| name := name old; randomize := negb (randomize old);
     isFinalAnswer := isFinalAnswer old; unit := unit old; default_ := default_ old;
     min := min old; max := max old; decimalPlaces := decimalPlaces old; step := step old |}.

(** What switching to a static question writes on every variable. *)
Definition madeStatic (old : QVariable) : QVariable :=
  {| name := name old; randomize := false;
     isFinalAnswer := isFinalAnswer old; unit := unit old; default_ := default_ old;
     min := None; max := None; decimalPlaces := None; step := None |}.

(** The item [newVar] inserts. *)
Definition newVariable (key encoded : string) : FormVariable :=
  {| itemKey := key;
     encoded := encoded;
     item := {| name := ""; randomize := false; isFinalAnswer := false; unit := None;
                default_ := None; min := None; max := None; decimalPlaces := None;
                step := None |} |}.

(** The text and number inputs of a variable. *)
Inductive Input :=
| NameInput (text : string)
| UnitInput (text : string)
| DefaultInput (text : string)
| MinInput (value : option Q)
| MaxInput (value : option Q)
| StepInput (value : option Q)
| DecimalPlacesInput (value : option Z).

(** Whether the input is rendered for the item. *)
Definition rendered (type : QuestionType) (v : QVariable) (input : Input) : bool :=
  let randomized := randomize v && negb (isFinalAnswer v) in
  let finalDynamic :=
    isFinalAnswer v && match type with dynamic => true | static => false end in
  match input with
  | NameInput _ | UnitInput _ => true
  | DefaultInput _ => negb (isFinalAnswer v)
  | MinInput _ | MaxInput _ => randomized || finalDynamic
  | StepInput _ => finalDynamic
  | DecimalPlacesInput _ => randomized || finalDynamic
  end.

Definition typed (input : Input) (old : QVariable) : QVariable :=
  {| name := match input with NameInput text => text | _ => name old end;
     randomize := randomize old;
     isFinalAnswer := isFinalAnswer old;
     unit := match input with UnitInput text => Some text | _ => unit old end;
     default_ := match input with DefaultInput text => Some text | _ => default_ old end;
     min := match input with MinInput value => value | _ => min old end;
     max := match input with MaxInput value => value | _ => max old end;
     decimalPlaces :=
       match input with DecimalPlacesInput value => value | _ => decimalPlaces old end;
     step := match input with StepInput value => value | _ => step old end |}.

(** What the author can do to the variables. *)
Inductive Event :=
| NewVar (key encoded : string)
| RemoveVar (index : nat)
| ReorderVar (from to : nat)
| ClickFinalAnswer (index : nat)
| ClickRandomize (index : nat)
| Type_ (index : nat) (input : Input)
| TypeChanged (value : QuestionType).

(** A control of the item at [index], when there is such an item and the
    control is enabled. *)
Definition onItem (index : nat) (enabled : QVariable -> bool)
    (f : QVariable -> QVariable) (form : Form) : Form :=
  match variables form with
  | Some vs =>
      match vs !! index with
      | Some v =>
          if enabled (item v)
          then withVariables form (Some (<[index := withItem f v]> vs))
          else form
      | None => form
      end
  | None => form
  end.

(** [form.reorderListItem]: the item at [from] is taken out and put back at
    [to]; a drag always starts on a rendered item. *)
Definition reorder (from to : nat) (vs : list FormVariable) : list FormVariable :=
  match vs !! from with
  | Some v => (take to (delete from vs) ++ v :: drop to (delete from vs))%list
  | None => vs
  end.

Definition apply (form : Form) (ev : Event) : Form :=
  match ev with
  | NewVar key encoded =>
      withVariables form
        (Some (default [] (variables form) ++ [newVariable key encoded])%list)
  | RemoveVar index =>
      withVariables form (option_map (delete index) (variables form))
  | ReorderVar from to =>
      withVariables form (option_map (reorder from to) (variables form))
  | ClickFinalAnswer index =>
      onItem index (fun v => negb (randomize v)) finalAnswerClicked form
  | ClickRandomize index =>
      match questionType form with
      | dynamic => onItem index (fun v => negb (isFinalAnswer v)) randomizeClicked form
      | static => form
      end
  | Type_ index input =>
      onItem index (fun v => rendered (questionType form) v input) (typed input) form
  | TypeChanged dynamic =>
      {| questionType := dynamic; variationId := 0; baseQuestionId := None;
         variables := variables form |}
  | TypeChanged static =>
      {| questionType := static; variationId := 1; baseQuestionId := baseQuestionId form;
         variables := option_map (map (withItem madeStatic)) (variables form) |}
  end.

Definition run (form : Form) (evs : list Event) : Form := fold_left apply evs form.

(** No variable is both randomized and a final answer, and a static
    question has no randomized variable. *)
Definition consistent (form : Form) : Prop :=
  forall v, v ∈ default [] (variables form) ->
    (randomize (item v) && isFinalAnswer (item v) = false)
    /\ (questionType form = static -> randomize (item v) = false).

(** A text of white space only. *)
Fixpoint blank (s : string) : bool :=
  match s with
  | EmptyString => true
  | String c rest => isWhiteSpace c && blank rest
  end.

(** *** The title *)

(** The titles the new title is compared with: every title once; when a
    question is edited ([currQuestionId] truthy), all but the title of the
    first question listed with that id; otherwise all but the empty one. *)
Definition otherTitles (questions : option (list Question)) (currQuestionId : option Z)
    : list string :=
  let data := default [] questions in
  let titles := remove_dups (map questionTitle data) in
  match currQuestionId with
  | Some current =>
      if (current =? 0)%Z then List.filter truthy titles
      else
        match List.find (fun q => (questionId q =? current)%Z) data with
        | Some q => List.filter (fun t => negb (String.eqb t (questionTitle q))) titles
        | None => titles
        end
  | None => List.filter truthy titles
  end.

(** The zod checks of the title, on the trimmed text. *)
Definition titleIssues (questions : option (list Question)) (currQuestionId : option Z)
    (title : string) : list string :=
  let t := trim title in
  ((if (5 <=? String.length t)%nat then [] else ["Title is too short"])
   ++ (if (String.length t <=? 150)%nat then [] else ["Title is too long"])
   ++ (if includes String.eqb (otherTitles questions currQuestionId) t
       then ["Title already exists"] else []))%list.

(** *** The answers of a static question *)

(** The zod checks of the answers: every answer between 1 and 500
    characters, at least two answers, at least one of them correct. *)
Definition answersIssues (answers : list Answer) : list string :=
  (flat_map
     (fun a =>
        (if (1 <=? String.length (answerContent a))%nat then [] else ["Cannot be empty"])
        ++ (if (String.length (answerContent a) <=? 500)%nat then []
            else ["Answer is too long"]))
     answers
   ++ (if (2 <=? length answers)%nat then []
       else ["Please add at least 2 possible options for static questions"])
   ++ (if (1 <=? length (List.filter isCorrect answers))%nat then []
       else ["Please have at least 1 correct answer"]))%list.

End EditorForm.

(** ** The quiz page's query on the endpoint *)

Module QuizQuery.
Import Schema Js Quiz Endpoint.

(** What the ["get-ucqat"] query holds once a request to the endpoint has
    ended. [axios.get] resolves on the 200 answer to a response whose
    [data] is the JSON body, the object the handler sends on its last
    line: the columns of the instance, with its [question] and the topic
    name when the instance has its question. When the handler throws, the
    request fails, the promise rejects, and the query's [data] stays
    undefined. *)
Definition answeredBy (r : completion Served) (ucqat : option (option UcqatData)) : Prop :=
  match r with
  | Throw _ => ucqat = None
  | Return served =>
      exists data,
        ucqat = Some (Some data)
        /\ instance data = servedInstance served
        /\ (forall qt, servedQuestion served = Some qt ->
                       Quiz.question data = theQuestion qt
                       /\ questionTopicName data = theTopicName qt)
  end.

End QuizQuery.

(** ** Deciding equality of the values compared *)

Module Decide.

#[global] Instance number_eq_dec : EqDecision Js.number.
Proof. solve_decision. Defined.

End Decide.

(** ** More concrete data *)

Module Samples.
Import Schema Js.

(** An evaluator that always fails the same way. *)
Definition evalFails (e : thrown)
    : list nat -> option (list QVariable) -> option (list Method) -> completion Evaluated :=
  fun _ _ _ => Throw e.

Definition divisionByZero : thrown := Error "Division by zero" None.

(** A request for the welcome quiz that carries no session. *)
Definition anonymousRequest : Endpoint.Request :=
  {| Endpoint.sessionUserId := None;
     Endpoint.queryCourseSlug := Some "welcome-quiz";
     Endpoint.queryPrevId := None |}.

(** A question with a single correct option. *)
Definition trueOrFalse : list Answer :=
  [ {| key := "t"; answerContent := "True"; isCorrect := false; isLatex := false |};
    {| key := "f"; answerContent := "False"; isCorrect := true; isLatex := false |} ].

(** Two tokens mailed to Ann, one to Bob. *)
Definition annToken1 : Adapter.VerificationToken :=
  {| Adapter.identifier := "ann@u.nus.edu"; Adapter.token := "t-1"; Adapter.expires := 100 |}.
Definition annToken2 : Adapter.VerificationToken :=
  {| Adapter.identifier := "ann@u.nus.edu"; Adapter.token := "t-2"; Adapter.expires := 200 |}.
Definition bobToken : Adapter.VerificationToken :=
  {| Adapter.identifier := "bob@u.nus.edu"; Adapter.token := "t-3"; Adapter.expires := 150 |}.
(** A token for Ann whose text is the one of Bob's token. *)
Definition annTokenClash : Adapter.VerificationToken :=
  {| Adapter.identifier := "ann@u.nus.edu"; Adapter.token := "t-3"; Adapter.expires := 300 |}.

Definition tokens : list Adapter.VerificationToken := [annToken1; bobToken].

Definition inviteEnv : AddUser.Env := {| AddUser.newId := "user-2"; AddUser.now := 500 |}.

Definition bobUser : AddUser.User :=
  AddUser.invited {| AddUser.newId := "user-1"; AddUser.now := 400 |} "bob@u.nus.edu".

(** Three courses, and a description with tags. *)
Definition mkCourse (slug : string) (level : Level) (type : Courses.CourseType)
    (description : string) : Courses.Course :=
  {| Courses.courseSlug := slug; Courses.courseName := slug;
     Courses.courseDescription := description; Courses.courseImage := "";
     Courses.courseLevel := level; Courses.type := type;
     Courses.moduleCode := "CG1111A"; Courses.moduleTitle := "EPP I";
     Courses.week := Some 3%Z; Courses.studio := None;
     Courses.video := None; Courses.markdown := None; Courses.topics := [] |}.

Definition courseList : list Courses.Course :=
  [ mkCourse "fundamentals" Foundational Courses.Content "<p>Ohm's <b>law</b></p>";
    mkCourse "welcome-quiz" Foundational Courses.Quiz "Start here";
    mkCourse "filters" Advanced Courses.Content "RC & RL" ].

Definition description : list Courses.Piece :=
  [ Courses.Tag "p"; Courses.Plain "Ohm's "; Courses.Tag "b"; Courses.Plain "law";
    Courses.Tag "/b"; Courses.Tag "/p" ].

(** Three questions of the editor's list: question 7 and its second
    variation, each with its own title. *)
Definition titled (id variation : Z) (title : string) : Question :=
  {| questionId := id; variationId := variation; q_topicSlug := "ohms-law";
     questionTitle := title; questionDifficulty := Medium; questionContent := "";
     questionData := None; lastModified := 0 |}.

Definition listed : list Question :=
  [ titled 5 1 "Series resistors"; titled 7 1 "Voltage divider";
    titled 7 2 "Voltage divider, loaded" ].

(** A course whose bank holds no question, and a stand-in for the
    recommender that proposes the first question of the bank: with an empty
    bank it has no question to return, and the request fails. *)
Definition emptyBank : Endpoint.Database :=
  {| Endpoint.questionWithAddedTime := []; Endpoint.attempt := [];
     Endpoint.question := []; Endpoint.topic := [Scenario.ohmsLaw] |}.

Definition recommendFromBank
    : Endpoint.Database -> list nat -> option string -> Z -> completion (string * Question) :=
  fun db _ _ _ =>
    match Endpoint.question db with
    | q :: _ => Return ("Ohm's Law", q)
    | [] => Throw (Error "Cannot read properties of undefined (reading 'questionData')" None)
    end.

End Samples.

(** * Properties *)

(** ** The primitives on sample inputs *)

Example parseInt_digits : Js.parseInt "7" = Js.Num 7.
Proof. reflexivity. Qed.

Example parseInt_prefix : Js.parseInt "  -12abc" = Js.Num (-12).
Proof. reflexivity. Qed.

Example parseInt_no_digits : Js.parseInt "abc" = Js.NaN.
Proof. reflexivity. Qed.

Example trim_both_ends : Js.trim "  a = b  " = "a = b".
Proof. reflexivity. Qed.

Example excluded_with_new_prevId :
  Endpoint.excludedQuestionIds (Some "7")
  = (Endpoint.excluded2025QuestionIds ++ [Js.Num 7])%list.
Proof. reflexivity. Qed.

Example excluded_with_listed_prevId :
  Endpoint.excludedQuestionIds (Some "89") = Endpoint.excluded2025QuestionIds.
Proof. reflexivity. Qed.

Example excluded_without_prevId :
  Endpoint.excludedQuestionIds None = Endpoint.excluded2025QuestionIds
  /\ Endpoint.excludedQuestionIds (Some "") = Endpoint.excluded2025QuestionIds.
Proof. by split. Qed.

Example methodPattern_samples :
  Editor.methodPattern "I = V / 2" = true
  /\ Editor.methodPattern "P == V * I" = false
  /\ Editor.methodPattern "a = b = c" = false
  /\ Editor.methodPattern "= b" = false
  /\ Editor.methodPattern "a =" = false
  /\ Editor.methodPattern "ab" = false.
Proof. by repeat split. Qed.

Example unusedVariationId_samples :
  Editor.unusedVariationId [1; 2; 3]%Z = 4%Z
  /\ Editor.unusedVariationId [1; 3; 4]%Z = 2%Z
  /\ Editor.unusedVariationId [2; 3]%Z = 1%Z
  /\ Editor.unusedVariationId []%Z = 1%Z.
Proof. by repeat split. Qed.

Example shuffleArray_sample :
  CustomMath.shuffleArray [3; 1; 4; 1; 5]%nat ["a"; "b"; "c"; "d"] = ["d"; "b"; "a"; "c"].
Proof. reflexivity. Qed.

(** ** Marking a selection *)

Section Marking.
Import Schema Quiz.

Lemma includes_string_elem (arr : list string) (x : string) :
  Js.includes String.eqb arr x = true <-> x ∈ arr.
Proof.
  unfold Js.includes. rewrite existsb_exists. split.
  - intros (y & Hin & Heq). apply String.eqb_eq in Heq. subst y.
    by apply list_elem_of_In.
  - intros Hin. exists x. split; [by apply list_elem_of_In | apply String.eqb_refl].
Qed.

Lemma every_includes (selected correct : list string) :
  forallb (fun item => Js.includes String.eqb correct item) selected = true
  <-> (forall x, x ∈ selected -> x ∈ correct).
Proof.
  rewrite forallb_forall. split.
  - intros H x Hx. apply includes_string_elem, H. by apply list_elem_of_In.
  - intros H x Hx. apply includes_string_elem, H. by apply list_elem_of_In.
Qed.



Lemma elem_of_correctKeys (answerOptions : list Answer) (k : string) :
  k ∈ correctKeys answerOptions
  <-> exists a, a ∈ answerOptions /\ isCorrect a = true /\ key a = k.
Proof.
  unfold correctKeys. rewrite list_elem_of_In, in_map_iff. split.
  - intros (a & Hk & Hin). apply filter_In in Hin as [Hin Hc].
    exists a. by rewrite list_elem_of_In.
  - intros (a & Hin & Hc & Hk). exists a. split; [done|].
    apply filter_In. by rewrite <- list_elem_of_In.
Qed.


End Marking.



(** ** The views of the quiz page *)

(** C8. The page does have a "Stay tuned" view, rendered exactly when a
    response carries no data; but the endpoint never sends such a response.
    Whatever the collaborators do, a request ends with an instance or with
    an error: with an instance the page holds data and shows the form or the
    review, with an error the query holds nothing and the page shows the
    loader. So for a course with no question left the page never shows
    "Stay tuned": on a course whose bank is empty, for a user with no stored
    instance, the lookup finds nothing, the recommender has nothing to
    return, the request fails, nothing is written, and the page shows the
    loader. *)
Theorem exhausted_course_shows_the_loader_not_stay_tuned :
  (forall s, Quiz.render s = Quiz.StayTuned <-> Quiz.UCQAT s = Some None)
  /\ (forall (Rand : Type)
        (RecommendQuestion :
           Endpoint.Database -> Rand -> option string -> Z ->
           Js.completion (string * Schema.Question))
        (CustomEval :
           Rand -> option (list Schema.QVariable) -> option (list Schema.Method) ->
           Js.completion Schema.Evaluated)
        (shuffleArray : Rand -> list Schema.Answer -> list Schema.Answer)
        (env : Endpoint.Env Rand) (req : Endpoint.Request) (db : Endpoint.Database)
        (s : Quiz.State),
        let out := Endpoint.handler Rand RecommendQuestion CustomEval shuffleArray env req db in
        QuizQuery.answeredBy (Endpoint.response out) (Quiz.UCQAT s) ->
        Quiz.render s <> Quiz.StayTuned
        /\ (forall e, Endpoint.response out = Js.Throw e -> Quiz.render s = Quiz.Loader)
        /\ (forall served, Endpoint.response out = Js.Return served ->
              exists data,
                Quiz.UCQAT s = Some (Some data)
                /\ Quiz.instance data = Endpoint.servedInstance served
                /\ (Quiz.render s = Quiz.QuestionForm data
                    \/ Quiz.render s = Quiz.ReviewShell)))
  /\ (let req := Scenario.requestOf "ann" None in
      let out :=
        Endpoint.handler (list nat) Samples.recommendFromBank
          (Scenario.evalAlways Scenario.evaluated0) Scenario.shuffle
          Scenario.env0 req Samples.emptyBank in
      Endpoint.question Samples.emptyBank = []
      /\ Endpoint.findFirst req (Endpoint.excludedQuestionIds (Endpoint.queryPrevId req))
           Samples.emptyBank = None
      /\ Endpoint.calls out = [Endpoint.CalledRecommendQuestion (Some "welcome-quiz") 0]
      /\ (exists e, Endpoint.response out = Js.Throw e)
      /\ Endpoint.database out = Samples.emptyBank
      /\ (forall s, QuizQuery.answeredBy (Endpoint.response out) (Quiz.UCQAT s) ->
                    Quiz.render s = Quiz.Loader
                    /\ Quiz.render s <> Quiz.StayTuned)).
Proof.
  split; [|split].
  - intros s. unfold Quiz.render.
    destruct (Quiz.UCQAT s) as [[data|]|]; [|done|done].
    by destruct (_ || _).
  - intros Rand RecommendQuestion CustomEval shuffleArray env req db s out.
    unfold Quiz.render. destruct (Endpoint.response out) as [served|e]; simpl.
    + intros (data & -> & Hinstance & _). split; [by destruct (_ || _)|].
      split; [done|]. intros served' [= <-]. exists data.
      split; [done|]. split; [done|]. destruct (_ || _); [by right | by left].
    + intros ->. split; [done|]. split; [done|]. done.
  - simpl. do 3 (split; [reflexivity|]). split; [by eexists|]. split; [reflexivity|].
    intros s Hs. unfold Quiz.render. simpl in Hs. by rewrite Hs.
Qed.

(** ** Counting the questions of a welcome-quiz session *)

Section Session.
Import Quiz.

Lemma mounted_reachable (data : option UcqatData) : reachable (mounted data).
Proof. unfold reachable, maxQnCount. simpl. lia. Qed.

(** A form is rendered only below the maximum. *)
Lemma form_below_max (s : State) (data : UcqatData) :
  render s = QuestionForm data -> qnCount s <> maxQnCount.
Proof.
  unfold render. destruct (UCQAT s) as [[d|]|]; try done.
  destruct (Nat.eqb_spec (qnCount s) maxQnCount) as [|Hne]; simpl; [done|].
  by destruct (negb _).
Qed.

(** In every reachable state the guard of [onSuccess] reads a counter
    below the maximum, so each counted answer refetches. *)
Lemma step_reachable (s : State) (ev : Answered) :
  reachable s -> reachable (step s ev).
Proof.
  intros [Hle Hf]. unfold step.
  destruct (render s) as [| | |data] eqn:Hr; try done.
  destruct (onSubmit (keys ev) data); [done|].
  apply form_below_max in Hr. unfold onSuccess.
  destruct (Nat.ltb_spec (qnCount s) maxQnCount) as [Hlt|Hge]; [|lia].
  unfold reachable. simpl. lia.
Qed.

Lemma run_reachable (evs : list Answered) (s : State) :
  reachable s -> reachable (run s evs).
Proof.
  revert s. induction evs as [|ev evs IH]; intros s Hs; [done|].
  apply IH. by apply step_reachable.
Qed.

(** Once the counter is at the maximum the page shows the review shell
    and no further action changes its state. *)
Lemma review_is_final (s : State) (evs : list Answered) :
  qnCount s = maxQnCount -> run s evs = s /\ forall data, render s <> QuestionForm data.
Proof.
  intros Hmax.
  assert (forall data, render s <> QuestionForm data) as Hview.
  { intros data Hr. by apply form_below_max in Hr. }
  split; [|done].
  induction evs as [|ev evs IH]; [done|]. simpl. 
  replace (step s ev) with s; [done|].
  unfold step. destruct (render s) eqn:Hr; try done. by destruct (Hview data).
Qed.

(** The fetches of a session: one more than the answers counted, hence at
    most sixteen. *)
Lemma fetches_follow_answers (data : option UcqatData) (evs : list Answered) :
  let s := run (mounted data) evs in
  ucqatFetches s = (1 + qnCount s)%nat /\ (ucqatFetches s <= 1 + maxQnCount)%nat.
Proof.
  destruct (run_reachable evs (mounted data) (mounted_reachable data)) as [Hle Hf].
  simpl. lia.
Qed.

End Session.

(** C10, on the session in which a new user answers fifteen questions. The
    fifteenth answer brings the counter to 15 and the page to the review
    shell for good, yet its success callback, whose guard reads the counter
    of the render before (14), still refetches the question query: sixteen
    questions have been fetched from the endpoint, not fifteen. *)
Theorem fifteenth_answer_fetches_a_sixteenth_question :
  let s14 := Quiz.run (Quiz.mounted (Some Scenario.ucqat5)) (repeat Scenario.answerBoth 14) in
  let s15 := Quiz.step s14 Scenario.answerBoth in
  Quiz.qnCount s14 = 14%nat
  /\ Quiz.ucqatFetches s14 = 15%nat
  /\ Quiz.render s14 = Quiz.QuestionForm Scenario.ucqat5
  /\ Quiz.qnCount s15 = Quiz.maxQnCount
  /\ Quiz.render s15 = Quiz.ReviewShell
  /\ Quiz.ucqatFetches s15 = 16%nat
  /\ (forall evs, Quiz.run s15 evs = s15).
Proof.
  repeat split; try reflexivity.
  intros evs. by apply review_is_final.
Qed.

(** ** The lookup of the stored instance *)

Section Lookup.
Import Schema Js Endpoint.

Lemma fold_newer_Some (rows : list QuestionWithAddedTime) (b : QuestionWithAddedTime) :
  exists r, fold_left newer rows (Some b) = Some r.
Proof.
  revert b. induction rows as [|row rows IH]; intros b; simpl; [by exists b|].
  destruct (addedTime b <? addedTime row)%Z; apply IH.
Qed.

Lemma fold_newer_max (rows : list QuestionWithAddedTime)
    (best : option QuestionWithAddedTime) (r : QuestionWithAddedTime) :
  fold_left newer rows best = Some r ->
  (best = Some r \/ r ∈ rows)
  /\ (forall b, best = Some b -> (addedTime b <= addedTime r)%Z)
  /\ (forall r', r' ∈ rows -> (addedTime r' <= addedTime r)%Z).
Proof.
  revert best. induction rows as [|row rows IH]; intros best; simpl.
  - intros ->. split; [by left|]. split.
    + intros b [= ->]. lia.
    + intros r' Hin. by apply elem_of_nil in Hin.
  - intros H. apply IH in H as (Hin & Hbest & Hrows).
    assert (addedTime row <= addedTime r)%Z as Hrow.
    { destruct best as [b|]; simpl in Hbest.
      - destruct (Z.ltb_spec (addedTime b) (addedTime row)).
        + by apply Hbest.
        + specialize (Hbest b eq_refl). lia.
      - by apply Hbest. }
    split; [|split].
    + destruct Hin as [Hin|Hin]; [|right; by constructor].
      destruct best as [b|]; simpl in Hin.
      * destruct (addedTime b <? addedTime row)%Z; inversion Hin; subst;
          [right; constructor | by left].
      * inversion Hin; subst. right. constructor.
    + intros b ->. simpl in Hbest.
      destruct (Z.ltb_spec (addedTime b) (addedTime row)).
      * specialize (Hbest row eq_refl). lia.
      * by apply Hbest.
    + intros r' Hr'. apply elem_of_cons in Hr' as [->|Hr']; [done | by apply Hrows].
Qed.

Lemma newest_None (rows : list QuestionWithAddedTime) :
  newest rows = None <-> rows = [].
Proof.
  unfold newest. split; [|by intros ->].
  destruct rows as [|row rows]; [done|]. simpl.
  destruct (fold_newer_Some rows row) as [r ->]. done.
Qed.

Variable req : Request.
Variable excluded : list number.
Variable db : Database.

(** The row found satisfies the conditions of the query and no row that
    satisfies them is more recent. *)
Lemma findFirst_Some (row : QuestionWithAddedTime) :
  findFirst req excluded db = Some row ->
  row ∈ questionWithAddedTime db
  /\ whereClause req excluded row = true
  /\ (forall r', r' ∈ questionWithAddedTime db -> whereClause req excluded r' = true ->
                 (addedTime r' <= addedTime row)%Z).
Proof.
  unfold findFirst, newest. intros H.
  apply fold_newer_max in H as ([?|Hin] & _ & Hmax); [done|].
  apply list_elem_of_In, filter_In in Hin as [Hin Hw]. apply list_elem_of_In in Hin.
  repeat split; [done..|].
  intros r' Hr' Hw'. apply Hmax. apply list_elem_of_In, filter_In.
  by rewrite <- list_elem_of_In.
Qed.

Lemma findFirst_None :
  findFirst req excluded db = None <->
  (forall r, r ∈ questionWithAddedTime db -> whereClause req excluded r = false).
Proof.
  unfold findFirst. rewrite newest_None. split.
  - intros H r Hin. apply not_true_is_false. intros Hw.
    assert (In r (List.filter (whereClause req excluded) (questionWithAddedTime db))) as Hf.
    { apply filter_In. by rewrite <- list_elem_of_In. }
    by rewrite H in Hf.
  - intros H. destruct (List.filter _ _) as [|r rest] eqn:Hf; [done|].
    assert (In r (List.filter (whereClause req excluded) (questionWithAddedTime db))) as Hin
      by (rewrite Hf; by left).
    apply filter_In in Hin as [Hin Hw]. apply list_elem_of_In in Hin.
    rewrite (H r Hin) in Hw. done.
Qed.

(** As soon as one stored row satisfies the conditions, a row is found. *)
Lemma findFirst_finds (r : QuestionWithAddedTime) :
  r ∈ questionWithAddedTime db -> whereClause req excluded r = true ->
  exists row, findFirst req excluded db = Some row.
Proof.
  intros Hin Hw. destruct (findFirst req excluded db) as [row|] eqn:Hf; [by exists row|].
  rewrite findFirst_None in Hf. rewrite (Hf r Hin) in Hw. done.
Qed.

End Lookup.

(** ** The two branches of the handler *)

Section Branches.
Import Schema Js Endpoint.

Variable Rand : Type.
Variable RecommendQuestion :
  Database -> Rand -> option string -> Z -> completion (string * Question).
Variable CustomEval :
  Rand -> option (list QVariable) -> option (list Method) -> completion Evaluated.
Variable shuffleArray : Rand -> list Answer -> list Answer.

Local Abbreviation handler := (Endpoint.handler Rand RecommendQuestion CustomEval shuffleArray).

(** A stored row that passes the lookup is returned as it is: nothing is
    written and no collaborator is called. *)
Lemma handler_stored (env : Env Rand) (req : Request) (db : Database)
    (row : QuestionWithAddedTime) :
  validIds (excludedQuestionIds (queryPrevId req)) = true ->
  findFirst req (excludedQuestionIds (queryPrevId req)) db = Some row ->
  handler env req db =
    {| response := Return {| servedInstance := row;
                             servedQuestion := includeQuestion db row |};
       database := db;
       calls := [] |}.
Proof.
  intros Hvalid H.
  unfold Endpoint.handler, handlerM, bind, findFirstM, readDatabase, ret. simpl.
  by rewrite Hvalid, H.
Qed.

(** The stored instance served is never an excluded one. *)
Lemma stored_instance_not_excluded (env : Env Rand) (req : Request) (db : Database)
    (row : QuestionWithAddedTime) :
  findFirst req (excludedQuestionIds (queryPrevId req)) db = Some row ->
  includes sameValueZero (excludedQuestionIds (queryPrevId req))
    (Num (qat_questionId row)) = false.
Proof.
  intros H. apply findFirst_Some in H as (_ & Hw & _).
  unfold whereClause in Hw. apply andb_true_iff in Hw as [_ Hw].
  by apply negb_true_iff in Hw.
Qed.

(** When the lookup finds nothing and a row is created, the row is of the
    question [RecommendQuestion] returned for [(courseSlug, 0)], whatever
    the excluded ids are. *)
Lemma handler_fresh (env : Env Rand) (req : Request) (db : Database) (served : Served) :
  findFirst req (excludedQuestionIds (queryPrevId req)) db = None ->
  response (handler env req db) = Return served ->
  exists recommendedTopicName q qd user slug stored,
    RecommendQuestion db (rnd env) (queryCourseSlug req) 0 = Return (recommendedTopicName, q)
    /\ questionData q = Some qd
    /\ sessionUserId req = Some user /\ queryCourseSlug req = Some slug
    /\ (if (variationId q =? 0)%Z
        then exists ev,
            CustomEval (rnd env) (variables qd) (methods qd) = Return ev
            /\ stored = default (questionAnswers ev) (answers qd)
            /\ qat_variables (servedInstance served) = Some (questionVariables ev)
        else answers qd = Some stored
             /\ qat_variables (servedInstance served) = variables qd)
    /\ servedInstance served =
         {| qatId := newQatId env;
            qat_questionId := questionId q;
            qat_variationId := variationId q;
            userId := user;
            courseSlug := slug;
            qat_variables := qat_variables (servedInstance served);
            qat_answers := shuffleArray (rnd env) stored;
            addedTime := now env |}
    /\ servedQuestion served =
         Some {| theQuestion := q; theTopicName := recommendedTopicName |}
    /\ database (handler env req db) =
         {| questionWithAddedTime :=
              (questionWithAddedTime db ++ [servedInstance served])%list;
            attempt := attempt db; question := question db; topic := topic db |}
    /\ calls (handler env req db) =
         (CalledRecommendQuestion (queryCourseSlug req) 0
            :: (if (variationId q =? 0)%Z
                then [CalledCustomEval (variables qd) (methods qd)] else [])
            ++ [CalledCreate (servedInstance served)])%list.
Proof.
  intros Hnone. unfold Endpoint.handler, handlerM, bind, findFirstM, readDatabase. simpl.
  destruct (validIds (excludedQuestionIds (queryPrevId req))); simpl; [|done].
  rewrite Hnone. unfold recommendAndCreate, bind, readDatabase, logged, ret, throw. simpl.
  destruct (RecommendQuestion db (rnd env) (queryCourseSlug req) 0)
    as [[recommendedTopicName q]|e] eqn:Hrec; simpl; [|done].
  destruct (questionData q) as [qd|] eqn:Hqd; simpl; [|done].
  unfold create, throw.
  destruct (variationId q =? 0)%Z eqn:Hvar; simpl.
  - destruct (CustomEval (rnd env) (variables qd) (methods qd)) as [ev|e] eqn:Hev;
      simpl; [|done].
    destruct (sessionUserId req) as [user|] eqn:Hu; simpl; [|done].
    destruct (queryCourseSlug req) as [slug|] eqn:Hs; simpl; [|done].
    destruct (answers qd) as [stored|] eqn:Ha; simpl; intros [= <-]; simpl.
    + exists recommendedTopicName, q, qd, user, slug, stored.
      rewrite Hvar. repeat split; try done. exists ev. by rewrite Ha.
    + exists recommendedTopicName, q, qd, user, slug, (questionAnswers ev).
      rewrite Hvar. repeat split; try done. exists ev. by rewrite Ha.
  - destruct (sessionUserId req) as [user|] eqn:Hu; simpl; [|done].
    destruct (queryCourseSlug req) as [slug|] eqn:Hs; simpl; [|done].
    destruct (answers qd) as [stored|] eqn:Ha; simpl; [|done]. intros [= <-]; simpl.
    exists recommendedTopicName, q, qd, user, slug, stored.
    rewrite Hvar. by repeat split.
Qed.

End Branches.

(** ** What the endpoint serves *)

Section StoredInstance.
Import Schema Js Endpoint.

(** For a request with a session and a course, the conditions of the
    lookup read: same user, same course, question id not excluded. *)
Lemma whereClause_spec (req : Request) (excluded : list number) (user slug : string)
    (row : QuestionWithAddedTime) :
  sessionUserId req = Some user -> queryCourseSlug req = Some slug ->
  whereClause req excluded row = true
  <-> userId row = user /\ courseSlug row = slug
      /\ includes sameValueZero excluded (Num (qat_questionId row)) = false.
Proof.
  intros Hu Hs. unfold whereClause, columnIs. rewrite Hu, Hs.
  rewrite !andb_true_iff, !String.eqb_eq, negb_true_iff.
  split; [intros [[? ?] ?] | intros (? & ? & ?)]; subst; auto.
Qed.

(** The lookup reads neither the Attempt table nor anything else than the
    instances, the questions and the topics. *)
Lemma findFirst_withAttempts (req : Request) (excluded : list number) (db : Database)
    (attempts : list Attempt) :
  findFirst req excluded (withAttempts db attempts) = findFirst req excluded db.
Proof. reflexivity. Qed.

End StoredInstance.

(** C3, as the code has it. For a signed-in user and a course (and a
    [prevId] that, when given, is a number), whenever some stored instance of that user and course has a question id that is not
    excluded, the endpoint serves the most recent of these instances; the
    Attempt table is not consulted, so the instance served is the same
    whatever Attempts exist. *)
Theorem served_stored_instance_is_newest_not_excluded
    (Rand : Type)
    (RecommendQuestion :
       Endpoint.Database -> Rand -> option string -> Z ->
       Js.completion (string * Schema.Question))
    (CustomEval :
       Rand -> option (list Schema.QVariable) -> option (list Schema.Method) ->
       Js.completion Schema.Evaluated)
    (shuffleArray : Rand -> list Schema.Answer -> list Schema.Answer)
    (env : Endpoint.Env Rand) (req : Endpoint.Request) (db : Endpoint.Database)
    (user slug : string) (r : Schema.QuestionWithAddedTime) :
  let serve := Endpoint.handler Rand RecommendQuestion CustomEval shuffleArray in
  let excluded := Endpoint.excludedQuestionIds (Endpoint.queryPrevId req) in
  let notExcluded (x : Schema.QuestionWithAddedTime) :=
    Js.includes Js.sameValueZero excluded (Js.Num (Schema.qat_questionId x)) = false in
  Endpoint.sessionUserId req = Some user ->
  Endpoint.queryCourseSlug req = Some slug ->
  Endpoint.validIds excluded = true ->
  r ∈ Endpoint.questionWithAddedTime db ->
  Schema.userId r = user -> Schema.courseSlug r = slug -> notExcluded r ->
  exists row,
    Endpoint.response (serve env req db) =
      Js.Return {| Endpoint.servedInstance := row;
                   Endpoint.servedQuestion := Endpoint.includeQuestion db row |}
    /\ row ∈ Endpoint.questionWithAddedTime db
    /\ Schema.userId row = user /\ Schema.courseSlug row = slug /\ notExcluded row
    /\ (forall r', r' ∈ Endpoint.questionWithAddedTime db ->
                   Schema.userId r' = user -> Schema.courseSlug r' = slug -> notExcluded r' ->
                   (Schema.addedTime r' <= Schema.addedTime row)%Z)
    /\ (forall attempts,
          Endpoint.response (serve env req (Endpoint.withAttempts db attempts)) =
          Endpoint.response (serve env req db)).
Proof.
  intros serve excluded notExcluded Hu Hs Hvalid Hin Hru Hrs Hrx.
  assert (Endpoint.whereClause req excluded r = true) as Hw
    by by apply (whereClause_spec req excluded user slug).
  destruct (findFirst_finds req excluded db r Hin Hw) as [row Hrow].
  exists row. subst serve.
  rewrite (handler_stored _ _ _ _ env req db row Hvalid Hrow). simpl.
  pose proof (findFirst_Some req excluded db row Hrow) as (Hrin & Hroww & Hmax).
  apply (whereClause_spec req excluded user slug) in Hroww as (? & ? & ?); [|done..].
  repeat split; try done.
  - intros r' Hr' Hu' Hs' Hx'. apply Hmax; [done|].
    by apply (whereClause_spec req excluded user slug).
  - intros attempts.
    rewrite (handler_stored _ _ _ _ env req (Endpoint.withAttempts db attempts) row);
      [done | done |].
    by rewrite findFirst_withAttempts.
Qed.

(** C3 on Bob's database: his only instance is served although he has
    answered it. *)
Lemma served_stored_instance_is_newest_not_excluded_witness :
  exists row,
    Endpoint.response
      (Endpoint.handler (list nat) (Scenario.recommendAlways Scenario.question7)
         (Scenario.evalAlways Scenario.evaluated0) Scenario.shuffle
         Scenario.env0 (Scenario.requestOf "bob" None) Scenario.bobDatabase) =
      Js.Return {| Endpoint.servedInstance := row;
                   Endpoint.servedQuestion :=
                     Endpoint.includeQuestion Scenario.bobDatabase row |}
    /\ Schema.userId row = "bob".
Proof.
  destruct (served_stored_instance_is_newest_not_excluded (list nat)
              (Scenario.recommendAlways Scenario.question7)
              (Scenario.evalAlways Scenario.evaluated0) Scenario.shuffle
              Scenario.env0 (Scenario.requestOf "bob" None) Scenario.bobDatabase
              "bob" "welcome-quiz" Scenario.bobRow7)
    as (row & Hresp & _ & Huser & _); try reflexivity.
  - apply list_elem_of_In. simpl. auto.
  - exists row. by split.
Defined.

(** C3 as stated fails on Ann's database. Ann answered her instance of
    question 5 (time 10); her instance of question 89 (time 20) is more
    recent and has no Attempt, so it is her current instance. The endpoint
    serves the instance of question 5 again: question 89 is on the excluded
    list and the lookup does not look at Attempts. *)
Lemma served_instance_is_not_current_counterexample :
  exists served,
    Endpoint.response
      (Endpoint.handler (list nat) (Scenario.recommendAlways Scenario.question7)
         (Scenario.evalAlways Scenario.evaluated0) Scenario.shuffle
         Scenario.env0 (Scenario.requestOf "ann" None) Scenario.annDatabase) =
      Js.Return served
    /\ Endpoint.servedInstance served = Scenario.annRow5
    /\ Endpoint.hasAttempt Scenario.annDatabase (Endpoint.servedInstance served) = true
    /\ Endpoint.isCurrent Scenario.annDatabase "ann" "welcome-quiz" Scenario.annRow89
    /\ ~ Endpoint.isCurrent Scenario.annDatabase "ann" "welcome-quiz"
           (Endpoint.servedInstance served).
Proof.
  eexists. split; [reflexivity|]. simpl. split; [reflexivity|]. split; [reflexivity|].
  split.
  - unfold Endpoint.isCurrent. repeat split; try reflexivity.
    + apply list_elem_of_In. simpl. auto.
    + intros r Hr _ _ _. apply list_elem_of_In in Hr. simpl in Hr.
      destruct Hr as [<-|[<-|[]]]; simpl; lia.
  - intros (_ & _ & _ & Hatt & _). discriminate Hatt.
Qed.




(** C1, on Bob's database. Bob's only stored instance is of question 7; the
    page asks for his next question with [prevId=7]. The lookup skips the
    stored instance, [RecommendQuestion] is called with [(courseSlug, 0)]
    and not with the excluded ids, and when it proposes question 7 again the
    endpoint creates and serves an instance of question 7, an id of the
    excluded set of this very request. *)
Theorem fresh_instance_can_be_of_an_excluded_question :
  let req := Scenario.requestOf "bob" (Some "7") in
  let excluded := Endpoint.excludedQuestionIds (Endpoint.queryPrevId req) in
  let out :=
    Endpoint.handler (list nat) (Scenario.recommendAlways Scenario.question7)
      (Scenario.evalAlways Scenario.evaluated0) Scenario.shuffle
      Scenario.env0 req Scenario.bobDatabase in
  Endpoint.findFirst req excluded Scenario.bobDatabase = None
  /\ exists served,
      Endpoint.response out = Js.Return served
      /\ Schema.qat_questionId (Endpoint.servedInstance served) = 7%Z
      /\ Js.includes Js.sameValueZero excluded
           (Js.Num (Schema.qat_questionId (Endpoint.servedInstance served))) = true
      /\ Endpoint.calls out =
           [Endpoint.CalledRecommendQuestion (Some "welcome-quiz") 0;
            Endpoint.CalledCreate (Endpoint.servedInstance served)].
Proof.
  split; [reflexivity|]. eexists. split; [reflexivity|]. by repeat split.
Qed.

(** ** Materializing a new instance *)

(** C4. When the lookup finds nothing and the endpoint creates an instance
    of a question of the bank (a dynamic question stores no answer set),
    the instance is persisted; [CustomEval] is called exactly when the
    recommended question has [variationId = 0], on its variables and
    methods; the persisted variables are the evaluated ones for such a
    question and the stored ones otherwise; the persisted answers are the
    shuffle, a permutation, of the evaluated answers for a dynamic question
    and of the stored answer set for a static one. *)
Theorem new_instance_is_materialized_from_the_recommended_question
    (Rand : Type)
    (RecommendQuestion :
       Endpoint.Database -> Rand -> option string -> Z ->
       Js.completion (string * Schema.Question))
    (CustomEval :
       Rand -> option (list Schema.QVariable) -> option (list Schema.Method) ->
       Js.completion Schema.Evaluated)
    (shuffleArray : Rand -> list Schema.Answer -> list Schema.Answer)
    (env : Endpoint.Env Rand) (req : Endpoint.Request) (db : Endpoint.Database)
    (served : Endpoint.Served) :
  let out := Endpoint.handler Rand RecommendQuestion CustomEval shuffleArray env req db in
  let row := Endpoint.servedInstance served in
  (forall rnd arr, shuffleArray rnd arr ≡ₚ arr) ->
  (forall name q,
     RecommendQuestion db (Endpoint.rnd env) (Endpoint.queryCourseSlug req) 0%Z
       = Js.Return (name, q) ->
     Endpoint.dynamicHasNoStoredAnswers q) ->
  Endpoint.findFirst req (Endpoint.excludedQuestionIds (Endpoint.queryPrevId req)) db = None ->
  Endpoint.response out = Js.Return served ->
  exists recommendedTopicName q qd,
    RecommendQuestion db (Endpoint.rnd env) (Endpoint.queryCourseSlug req) 0%Z
      = Js.Return (recommendedTopicName, q)
    /\ Schema.questionData q = Some qd
    /\ Schema.qat_questionId row = Schema.questionId q
    /\ Schema.qat_variationId row = Schema.variationId q
    /\ Endpoint.questionWithAddedTime (Endpoint.database out) =
         (Endpoint.questionWithAddedTime db ++ [row])%list
    /\ ((exists v m, Endpoint.CalledCustomEval v m ∈ Endpoint.calls out)
        <-> Schema.variationId q = 0%Z)
    /\ (Schema.variationId q = 0%Z ->
        exists ev,
          CustomEval (Endpoint.rnd env) (Schema.variables qd) (Schema.methods qd) = Js.Return ev
          /\ Endpoint.CalledCustomEval (Schema.variables qd) (Schema.methods qd)
               ∈ Endpoint.calls out
          /\ Schema.qat_variables row = Some (Schema.questionVariables ev)
          /\ Schema.qat_answers row
             = shuffleArray (Endpoint.rnd env) (Schema.questionAnswers ev)
          /\ Schema.qat_answers row ≡ₚ Schema.questionAnswers ev)
    /\ (Schema.variationId q <> 0%Z ->
        Schema.qat_variables row = Schema.variables qd
        /\ exists stored,
            Schema.answers qd = Some stored
            /\ Schema.qat_answers row = shuffleArray (Endpoint.rnd env) stored
            /\ Schema.qat_answers row ≡ₚ stored).
Proof.
  intros out row Hperm Hbank Hnone Hresp.
  destruct (handler_fresh _ _ _ _ env req db served Hnone Hresp)
    as (topicName & q & qd & user & slug & stored & Hrec & Hqd & _ & _ & Hcase & Hrow & _
        & Hdb & Hcalls).
  exists topicName, q, qd. fold out in Hdb, Hcalls. fold row in Hrow, Hdb, Hcalls, Hcase.
  assert (Schema.qat_answers row = shuffleArray (Endpoint.rnd env) stored) as Hanswers
    by by rewrite Hrow.
  split; [done|]. split; [done|].
  split; [by rewrite Hrow|]. split; [by rewrite Hrow|]. split; [by rewrite Hdb|].
  destruct (Z.eqb_spec (Schema.variationId q) 0) as [Hzero|Hnz].
  - destruct Hcase as (ev & Hev & Hstored & Hvars).
    rewrite (Hbank topicName q Hrec Hzero qd Hqd) in Hstored. simpl in Hstored. subst stored.
    assert (Endpoint.CalledCustomEval (Schema.variables qd) (Schema.methods qd)
              ∈ Endpoint.calls out) as Hcalled.
    { rewrite Hcalls. apply list_elem_of_In. simpl. right. left. reflexivity. }
    split; [|split; [|done]].
    + split; [done|]. intros _. by eexists _, _.
    + intros _. exists ev. repeat split; try done. rewrite Hanswers. apply Hperm.
  - destruct Hcase as (Hstored & Hvars).
    split; [|split; [done|]].
    + split; [|done]. intros (v & m & Hin). rewrite Hcalls in Hin.
      apply list_elem_of_In in Hin. simpl in Hin.
      destruct Hin as [Hin|[Hin|[]]]; discriminate Hin.
    + intros _. split; [done|]. exists stored. repeat split; try done.
      rewrite Hanswers. apply Hperm.
Qed.

(** The shuffle returns a permutation of its argument, whatever is drawn. *)
Lemma shuffleArray_Permutation {A : Type} (draws : list nat) (arr : list A) :
  CustomMath.shuffleArray draws arr ≡ₚ arr.
Proof.
  revert arr. induction draws as [|d draws IH]; intros arr; simpl; [done|].
  destruct (arr !! (d mod length arr)%nat) as [x|] eqn:Hx; [|done].
  rewrite IH. symmetry. by apply delete_Permutation.
Qed.

(** C4 on the dynamic question 12, saved without answers: it is evaluated,
    and the evaluated variables and a permutation of the evaluated answers
    are persisted. *)
Lemma new_instance_is_materialized_from_the_recommended_question_witness :
  exists served row,
    Endpoint.response
      (Endpoint.handler (list nat) (Scenario.recommendAlways Scenario.question12)
         (Scenario.evalAlways Scenario.evaluated0) Scenario.shuffle
         Scenario.env0 (Scenario.requestOf "ann" None) Scenario.emptyDatabase) =
      Js.Return served
    /\ row = Endpoint.servedInstance served
    /\ Schema.qat_variables row = Some [Scenario.sampledVoltage]
    /\ Schema.qat_answers row ≡ₚ [Scenario.computed1; Scenario.computed2].
Proof.
  assert (forall name q,
            Scenario.recommendAlways Scenario.question12 Scenario.emptyDatabase
              (Endpoint.rnd Scenario.env0)
              (Endpoint.queryCourseSlug (Scenario.requestOf "ann" None)) 0%Z
            = Js.Return (name, q) ->
            Endpoint.dynamicHasNoStoredAnswers q) as Hbank.
  { intros name q [= _ <-] _ qd [= <-]. reflexivity. }
  eexists _, _. split; [reflexivity|]. split; [reflexivity|].
  destruct (new_instance_is_materialized_from_the_recommended_question (list nat)
              (Scenario.recommendAlways Scenario.question12)
              (Scenario.evalAlways Scenario.evaluated0) Scenario.shuffle
              Scenario.env0 (Scenario.requestOf "ann" None) Scenario.emptyDatabase
              _ (fun rnd arr => shuffleArray_Permutation rnd arr) Hbank eq_refl eq_refl)
    as (t & q & qd & Hrec & Hqd & _ & _ & _ & _ & Hdyn & _).
  injection Hrec as <- <-. injection Hqd as <-.
  destruct (Hdyn eq_refl) as (ev & Hev & _ & Hvars & _ & Hanswers).
  injection Hev as <-. split; [exact Hvars | exact Hanswers].
Defined.

(** Why the shape of the bank matters: on question 13, a dynamic question
    that carries a stored answer set (the editor saves none), the stored
    set comes first in [questionData.answers ?? ...], and it is the one
    shuffled and persisted. *)
Lemma stored_answers_come_first_when_present :
  exists served,
    Endpoint.response
      (Endpoint.handler (list nat) (Scenario.recommendAlways Scenario.question13)
         (Scenario.evalAlways Scenario.evaluated0) Scenario.shuffle
         Scenario.env0 (Scenario.requestOf "ann" None) Scenario.emptyDatabase) =
      Js.Return served
    /\ Schema.qat_variationId (Endpoint.servedInstance served) = 0%Z
    /\ Schema.qat_variables (Endpoint.servedInstance served)
       = Some (Schema.questionVariables Scenario.evaluated0)
    /\ Schema.qat_answers (Endpoint.servedInstance served) ≡ₚ Scenario.fourOptions
    /\ ~ Endpoint.dynamicHasNoStoredAnswers Scenario.question13.
Proof.
  eexists. split; [reflexivity|]. simpl. split; [reflexivity|]. split; [reflexivity|].
  split.
  - apply (shuffleArray_Permutation (A := Schema.Answer)).
  - intros H. by specialize (H eq_refl _ eq_refl).
Qed.

(** ** The variation id of a new static variation *)

Section VariationIds.
Import Editor.

Lemma includes_Z_elem (ids : list Z) (x : Z) :
  Js.includes Z.eqb ids x = true <-> x ∈ ids.
Proof.
  unfold Js.includes. rewrite existsb_exists, list_elem_of_In. split.
  - intros (y & Hin & Heq). apply Z.eqb_eq in Heq. by subst y.
  - intros Hin. exists x. split; [done | apply Z.eqb_refl].
Qed.

(** Along an ascending list the candidate is, after each element, the
    smallest id unused by the elements read so far. *)
Lemma fold_nextCandidate (all suf : list Z) :
  forall (pre : list Z) (acc : Z),
    all = (pre ++ suf)%list ->
    StronglySorted Z.lt all ->
    Forall (fun x => (0 <= x)%Z) suf ->
    smallestUnused pre acc ->
    smallestUnused all (fold_left (nextCandidate all) suf acc).
Proof.
  induction suf as [|curr rest IH]; intros pre acc Hall Hsorted Hpos Hacc; simpl.
  - by rewrite Hall, app_nil_r.
  - apply (IH (pre ++ [curr])%list).
    + by rewrite Hall, <- app_assoc.
    + done.
    + by inversion Hpos.
    + destruct Hacc as (Hone & Hfresh & Hbelow).
      assert (forall x, x ∈ pre -> (x < curr)%Z) as Hpre.
      { intros x Hx. rewrite Hall in Hsorted.
        apply (StronglySorted_app_1_elem_of _ _ _ x curr Hsorted Hx). by left. }
      assert (forall y, y ∈ rest -> (curr < y)%Z) as Hrest.
      { intros y Hy. rewrite Hall in Hsorted.
        apply StronglySorted_app_1_r, StronglySorted_cons in Hsorted as [Hlt _].
        by apply (proj1 (Forall_forall _ _) Hlt). }
      assert (0 <= curr)%Z as Hcurr by by inversion Hpos.
      unfold nextCandidate.
      destruct (Z.gtb_spec curr acc) as [Hgt|Hle]; simpl.
      * assert (Js.includes Z.eqb all acc = false) as ->.
        { apply not_true_is_false. rewrite includes_Z_elem, Hall.
          rewrite elem_of_app, elem_of_cons. intros [ ? | [ -> | Hin ] ]; [done | lia |].
          apply Hrest in Hin. lia. }
        simpl. repeat split; [done | |].
        -- rewrite elem_of_app, list_elem_of_singleton. intros [ ? | -> ]; [done | lia].
        -- intros k Hk. apply elem_of_app. left. by apply Hbelow.
      * repeat split; [lia | |].
        -- rewrite elem_of_app, list_elem_of_singleton. intros [Hin|?]; [|lia].
           apply Hpre in Hin. lia.
        -- intros k Hk. apply elem_of_app.
           destruct (Z.eq_dec k curr) as [->|Hne]; [right; by left|].
           left. apply Hbelow. lia.
Qed.

(** On an ascending list of ids (none negative) the computation does give
    the smallest unused id. *)
Lemma unusedVariationId_ascending (variationIds : list Z) :
  StronglySorted Z.lt variationIds ->
  Forall (fun x => (0 <= x)%Z) variationIds ->
  smallestUnused variationIds (unusedVariationId variationIds).
Proof.
  intros Hsorted Hpos. unfold unusedVariationId.
  apply (fold_nextCandidate variationIds variationIds []); try done.
  repeat split; [lia | apply not_elem_of_nil | intros k Hk; lia].
Qed.

End VariationIds.

(** C5, on a base question whose variations 2 and 1 are listed in that
    order. The computation answers 2, an id that is already used, where the
    smallest unused id is 3; on the same ids in ascending order it answers
    3. The result depends on the order of the list. *)
Theorem unusedVariationId_depends_on_the_order :
  Editor.unusedVariationId [2; 1]%Z = 2%Z
  /\ 2%Z ∈ [2; 1]%Z
  /\ Editor.smallestUnused [2; 1]%Z 3%Z
  /\ ~ Editor.smallestUnused [2; 1]%Z (Editor.unusedVariationId [2; 1]%Z)
  /\ Editor.unusedVariationId [1; 2]%Z = 3%Z
  /\ Editor.baseQuestionChanged
       (Some [Scenario.question5; Scenario.question7v2; Scenario.question7]) (Some "7")
     = Some 2%Z.
Proof.
  split; [reflexivity|]. split; [by left|]. split.
  - repeat split; [lia | |].
    + intros Hin. apply list_elem_of_In in Hin. simpl in Hin. lia.
    + intros k Hk. apply list_elem_of_In. simpl. lia.
  - split; [|split; reflexivity].
    intros (_ & Hfresh & _). apply Hfresh. by left.
Qed.

(** ** A new mastery record *)

(** C6. When no Mastery record exists for a user and a topic, initializing
    creates one whose mastery level is the topic's prior, whose error meter
    is 0 and whose flag is false, and touches no other record; a topic
    created without a prior has the prior 0.25. *)
Theorem initialize_creates_mastery_at_topic_prior
    (user : string) (t : Schema.Topic) (masteries : gmap (string * string) Schema.Mastery) :
  masteries !! (user, Schema.topicSlug t) = None ->
  exists m,
    MasteryModel.initialize user t masteries !! (user, Schema.topicSlug t) = Some m
    /\ Schema.masteryLevel m = Schema.topicPrior t
    /\ Schema.errorMeter m = 0%Z
    /\ Schema.topicPing m = false
    /\ (forall k, k <> (user, Schema.topicSlug t) ->
                  MasteryModel.initialize user t masteries !! k = masteries !! k)
    /\ (forall slug name level,
          t = MasteryModel.createTopic slug name level None ->
          (Schema.masteryLevel m == 1 # 4)%Q).
Proof.
  intros Hnone. unfold MasteryModel.initialize. rewrite Hnone.
  eexists. split; [apply lookup_insert_eq|]. simpl.
  repeat split.
  - intros k Hk. by rewrite lookup_insert_ne.
  - intros slug name level ->. reflexivity.
Qed.

Lemma initialize_creates_mastery_at_topic_prior_witness :
  exists m,
    MasteryModel.initialize "ann" Scenario.ohmsLaw ∅ !! ("ann", "ohms-law") = Some m
    /\ (Schema.masteryLevel m == 1 # 4)%Q
    /\ Schema.errorMeter m = 0%Z
    /\ Schema.topicPing m = false.
Proof.
  destruct (initialize_creates_mastery_at_topic_prior "ann" Scenario.ohmsLaw ∅)
    as (m & Hm & Hlevel & Herr & Hping & _ & Hprior).
  - apply lookup_empty.
  - exists m. split; [exact Hm|]. split; [|by split].
    apply (Hprior "ohms-law" "Ohm's Law" Schema.Foundational). reflexivity.
Defined.

(** ** Method expressions: the editor's check *)

Section MethodPattern.
Import Js Editor.

Lemma whiteSpace_is_not_equals (c : ascii) :
  isWhiteSpace c = true -> isEquals c = false.
Proof. destruct c as [[] [] [] [] [] [] [] []]; simpl; intros H; done. Qed.

Lemma countEquals_trimStart (s : string) : countEquals (trimStart s) = countEquals s.
Proof.
  induction s as [|c rest IH]; simpl; [done|].
  destruct (isWhiteSpace c) eqn:Hc; [|done].
  by rewrite (whiteSpace_is_not_equals c Hc).
Qed.

Lemma countEquals_trimEnd (s : string) : countEquals (trimEnd s) = countEquals s.
Proof.
  induction s as [|c rest IH]; simpl; [done|].
  destruct (trimEnd rest) as [|c' rest'] eqn:Hrest; simpl in *.
  - rewrite <- IH. destruct (isWhiteSpace c) eqn:Hc; simpl; [|lia].
    by rewrite (whiteSpace_is_not_equals c Hc).
  - by rewrite <- IH.
Qed.

(** Trimming leaves the "=" signs alone. *)
Lemma countEquals_trim (s : string) : countEquals (trim s) = countEquals s.
Proof. unfold trim. by rewrite countEquals_trimEnd, countEquals_trimStart. Qed.

Lemma noEqualsToEnd_count (s : string) :
  noEqualsToEnd s = true <-> countEquals s = 0%nat.
Proof.
  induction s as [|c rest IH]; simpl; [done|].
  rewrite andb_true_iff, IH. destruct (isEquals c); simpl.
  - split; [by intros [? ?] | intros ?; lia].
  - split; [by intros [_ ?] | by intros ?].
Qed.

Lemma afterLeftSide_split (s : string) :
  afterLeftSide s = true <->
  exists l r, s = l ++ String "=" r /\ countEquals l = 0%nat
              /\ r <> "" /\ countEquals r = 0%nat.
Proof.
  induction s as [|c rest IH]; simpl.
  - split; [done|]. intros (l & r & H & _). by destruct l.
  - destruct (isEquals c) eqn:Hc.
    + apply Ascii.eqb_eq in Hc. subst c. split.
      * intros Hr. exists "", rest. repeat split; try done.
        -- intros ->. done.
        -- apply noEqualsToEnd_count. by destruct rest.
      * intros (l & r & H & Hl & Hr & Hcount).
        destruct l as [|c l]; simpl in *.
        -- injection H as ->. destruct r; [done|]. by apply noEqualsToEnd_count.
        -- injection H as <- _. simpl in Hl. done.
    + rewrite IH. split.
      * intros (l & r & -> & Hl & Hr & Hcount).
        exists (String c l), r. simpl. rewrite Hc. by repeat split.
      * intros (l & r & H & Hl & Hr & Hcount).
        destruct l as [|c' l]; simpl in *.
        -- injection H as -> _. done.
        -- injection H as <- ->. exists l, r. repeat split; try done.
           destruct (isEquals c); [done|]. done.
Qed.

(** The pattern accepts exactly the texts made of a non-empty left side
    without "=", one "=", and a non-empty right side without "=". *)
Lemma methodPattern_split (s : string) :
  methodPattern s = true <->
  exists l r, s = l ++ String "=" r /\ l <> "" /\ countEquals l = 0%nat
              /\ r <> "" /\ countEquals r = 0%nat.
Proof.
  destruct s as [|c rest]; simpl.
  - split; [done|]. intros (l & r & H & _). by destruct l.
  - rewrite andb_true_iff, negb_true_iff, afterLeftSide_split. split.
    + intros (Hc & l & r & -> & Hl & Hr & Hcount).
      exists (String c l), r. simpl. rewrite Hc. by repeat split.
    + intros (l & r & H & Hne & Hl & Hr & Hcount).
      destruct l as [|c' l]; [done|]. simpl in *. injection H as <- ->.
      destruct (isEquals c); [done|]. split; [done|]. by exists l, r.
Qed.

Lemma countEquals_app (l r : string) :
  countEquals (l ++ r) = (countEquals l + countEquals r)%nat.
Proof. induction l as [|c l IH]; simpl; [done|]. rewrite IH. lia. Qed.

Lemma methodPattern_one_equals (s : string) :
  methodPattern s = true -> countEquals s = 1%nat.
Proof.
  rewrite methodPattern_split. intros (l & r & -> & _ & Hl & _ & Hr).
  rewrite countEquals_app. simpl. lia.
Qed.

(** An expression that does not have exactly one "=" does not pass the
    editor's validation. *)
Lemma exprIssues_not_one_equals (expr : string) :
  countEquals expr <> 1%nat -> "Invalid expression" ∈ exprIssues expr.
Proof.
  intros Hcount. unfold exprIssues.
  destruct (methodPattern (trim expr)) eqn:Hp.
  - apply methodPattern_one_equals in Hp. by rewrite countEquals_trim in Hp.
  - apply elem_of_app. left. by left.
Qed.

End MethodPattern.

(** ** The text form of the error fields *)

Section WireRoundTrip.
Import Wire.

Lemma readOnes_putOnes (n k : nat) (tail : string) :
  readOnes (putOnes n tail) k = Some ((k + n)%nat, tail).
Proof.
  revert k. induction n as [|n IH]; intros k; simpl.
  - by rewrite Nat.add_0_r.
  - rewrite IH. do 2 f_equal. lia.
Qed.

Lemma readChars_append (s tail : string) :
  readChars (String.length s) (s ++ tail) = Some (s, tail).
Proof. induction s as [|c s IH]; simpl; [done|]. by rewrite IH. Qed.

Lemma readField_putField (s tail : string) :
  readField (putField s tail) = Some (s, tail).
Proof.
  unfold readField, putField. rewrite readOnes_putOnes. simpl. apply readChars_append.
Qed.

Lemma readIndex_putIndex (z : Z) (tail : string) :
  readIndex (putIndex z tail) = Some (z, tail).
Proof.
  unfold readIndex, putIndex. rewrite readOnes_putOnes. simpl.
  destruct (Z.ltb_spec z 0); simpl; do 2 f_equal; lia.
Qed.

(** Parsing gives back the fields that were written. *)
Lemma parse_stringify (p : Editor.ErrorPayload) : parse (stringify p) = Js.Return p.
Proof.
  unfold parse, stringify.
  rewrite readField_putField, readIndex_putIndex, !readField_putField.
  by destruct p.
Qed.

End WireRoundTrip.

(** ** A malformed method: the error and its report *)

Section EvaluationFailure.
Import Schema Js Editor.

Variable Rand : Type.
Variable Values : Type.
Variable resolveVariables : Rand -> bool -> list QVariable -> Values.
Variable sanitize : string -> string.
Variable substitute : Values -> string -> string.
Variable assign : Values -> string -> string + Values.
Variable materialize : Rand -> Values -> list QVariable -> Evaluated.
Variable JSON_stringify : ErrorPayload -> string.
Variable JSON_parse : string -> completion ErrorPayload.
Variable firstIndex : Z.

(** [JSON.parse] reads back what [JSON.stringify] wrote. *)
Hypothesis JSON_parse_stringify : forall p, JSON_parse (JSON_stringify p) = Return p.

Local Abbreviation evaluateMethod :=
  (Evaluator.evaluateMethod Values sanitize substitute assign JSON_stringify).
Local Abbreviation evaluateMethods :=
  (Evaluator.evaluateMethods Values sanitize substitute assign JSON_stringify).
Local Abbreviation evaluationError := (Evaluator.evaluationError JSON_stringify).
Local Abbreviation CustomEval :=
  (Evaluator.CustomEval Rand Values resolveVariables sanitize substitute assign
     materialize JSON_stringify firstIndex).

(** A method fails in one of two ways: it does not have exactly one "=",
    or its assignment cannot be evaluated on the values reached. *)
Lemma evaluateMethod_Throw_kind (index : Z) (values : Values) (m : Method) (e : thrown) :
  evaluateMethod index values m = Throw e ->
  exists message,
    (countEquals (expr m) <> 1%nat /\ message = Evaluator.malformedMessage
     \/ countEquals (expr m) = 1%nat
        /\ assign values (substitute values (sanitize (expr m))) = inl message)
    /\ e = evaluationError index message (expr m) (sanitize (expr m))
             (substitute values (sanitize (expr m))).
Proof.
  unfold Evaluator.evaluateMethod.
  destruct (Nat.eqb_spec (countEquals (expr m)) 1) as [Hone|Hnot]; simpl.
  - destruct (assign values _) as [message|values'] eqn:Hassign; [|done].
    intros [= <-]. exists message. split; [by right | done].
  - intros [= <-]. exists Evaluator.malformedMessage. split; [by left | done].
Qed.

(** With a malformed method at position [i] (one that does not have exactly
    one "=", or one whose assignment cannot be evaluated once the methods
    before it were), the evaluation fails at the first method [j <= i] that
    cannot be evaluated, after the methods before it were evaluated in
    order; it is the method at [i] itself when the methods before it are
    fine. *)
Lemma evaluateMethods_fails (ms : list Method) :
  forall (index : Z) (values : Values) (i : nat) (m : Method),
    ms !! i = Some m ->
    (countEquals (expr m) <> 1%nat
     \/ forall values_i,
          evaluateMethods index values (take i ms) = Return values_i ->
          exists message,
            assign values_i (substitute values_i (sanitize (expr m))) = inl message) ->
    exists (j : nat) (m' : Method) (values_j : Values) (message : string),
      (j <= i)%nat
      /\ ms !! j = Some m'
      /\ evaluateMethods index values (take j ms) = Return values_j
      /\ (countEquals (expr m') <> 1%nat /\ message = Evaluator.malformedMessage
          \/ countEquals (expr m') = 1%nat
             /\ assign values_j (substitute values_j (sanitize (expr m'))) = inl message)
      /\ (forall v, evaluateMethods index values (take i ms) = Return v -> j = i)
      /\ evaluateMethods index values ms =
           Throw (evaluationError (index + Z.of_nat j) message (expr m')
                    (sanitize (expr m')) (substitute values_j (sanitize (expr m')))).
Proof.
  induction ms as [|m0 rest IH]; intros index values i m Hi Hbad; [done|].
  destruct (evaluateMethod index values m0) as [values'|e] eqn:Hm0.
  - destruct i as [|i]; simpl in Hi.
    + injection Hi as ->. exfalso. revert Hm0. unfold Evaluator.evaluateMethod.
      destruct (Nat.eqb_spec (countEquals (expr m)) 1) as [Hone|Hnot]; simpl; [|done].
      destruct Hbad as [Hbad|Hbad]; [done|].
      destruct (Hbad values eq_refl) as [message Hassign]. by rewrite Hassign.
    + destruct (IH (index + 1)%Z values' i m Hi)
        as (j & m' & values_j & message & Hle & Hj & Hpre & Hkind & Hfirst & Hfail).
      { destruct Hbad as [Hbad|Hbad]; [by left | right].
        intros values_i Hvalues. apply Hbad. simpl. by rewrite Hm0. }
      exists (S j), m', values_j, message. simpl. rewrite Hm0.
      split; [lia|]. split; [done|]. split; [done|]. split; [done|]. split.
      * intros v Hv. by rewrite (Hfirst v Hv).
      * rewrite Hfail. do 2 f_equal. lia.
  - destruct (evaluateMethod_Throw_kind index values m0 e Hm0) as (message & Hkind & ->).
    exists 0%nat, m0, values, message. simpl. rewrite Hm0, Z.add_0_r.
    split; [lia|]. split; [done|]. split; [done|]. split; [done|]. split; [|done].
    intros v Hv. destruct i as [|i]; [done|]. simpl in Hv. by rewrite Hm0 in Hv.
Qed.

(** C7. When a method of a dynamic question is malformed, be it that it
    does not have exactly one "=" (the editor's validation then flags it) or
    that its assignment cannot be evaluated (an undefined name, a division
    by zero, a domain error), the evaluation fails with an error that
    carries the index of the offending method (the first method that cannot
    be evaluated, which is the malformed one when those before it are
    fine), its expression and the sanitized and substituted forms of the
    expression, and the preview does not throw: it returns, both previews
    read the invalid message, and one report is added that shows the
    message, the index, the expression and its sanitized and encoded
    forms. *)
Theorem malformed_method_fails_and_is_reported
    (rnd : Rand) (toRandomize : bool) (st : EditorState)
    (ms : list Method) (i : nat) (m : Method) :
  questionType st = dynamic ->
  formMethods st = Some ms ->
  ms !! i = Some m ->
  let variables := option_map (map trimName) (formVariables st) in
  let values := resolveVariables rnd toRandomize (default [] variables) in
  (countEquals (expr m) <> 1%nat
   \/ forall values_i,
        evaluateMethods firstIndex values (take i ms) = Return values_i ->
        exists message,
          assign values_i (substitute values_i (sanitize (expr m))) = inl message) ->
  (countEquals (expr m) <> 1%nat -> "Invalid expression" ∈ exprIssues (expr m))
  /\ exists (j : nat) (m' : Method) (values_j : Values) (message : string)
            (st' : EditorState),
      (j <= i)%nat
      /\ ms !! j = Some m'
      /\ evaluateMethods firstIndex values (take j ms) = Return values_j
      /\ (countEquals (expr m') <> 1%nat /\ message = Evaluator.malformedMessage
          \/ countEquals (expr m') = 1%nat
             /\ assign values_j (substitute values_j (sanitize (expr m'))) = inl message)
      /\ (forall v, evaluateMethods firstIndex values (take i ms) = Return v -> j = i)
      /\ CustomEval rnd variables (Some ms) toRandomize =
           Throw (evaluationError (firstIndex + Z.of_nat j) message (expr m')
                    (sanitize (expr m')) (substitute values_j (sanitize (expr m'))))
      /\ handlePreviewChange Rand CustomEval JSON_parse rnd toRandomize st = Return st'
      /\ preview st' = "\text{Invalid Variables or Methods}"
      /\ finalAnsPreview st' = "\text{Invalid Variables or Methods}"
      /\ toasts st' =
           (toasts st
            ++ [ToastInvalidMethod message (firstIndex + Z.of_nat j) (expr m')
                  (sanitize (expr m')) (substitute values_j (sanitize (expr m')))])%list
      /\ questionType st' = dynamic
      /\ formVariables st' = variables
      /\ formMethods st' = Some ms
      /\ methodIssues st' = map (fun x => exprIssues (expr x)) ms.
Proof.
  intros Hdyn Hms Hi variables values Hbad.
  split; [apply exprIssues_not_one_equals|].
  destruct (evaluateMethods_fails ms firstIndex values i m Hi Hbad)
    as (j & m' & values_j & message & Hle & Hj & Hpre & Hkind & Hfirst & Hfail).
  assert (CustomEval rnd variables (Some ms) toRandomize =
            Throw (evaluationError (firstIndex + Z.of_nat j) message (expr m')
                     (sanitize (expr m')) (substitute values_j (sanitize (expr m')))))
    as Heval.
  { unfold Evaluator.CustomEval. simpl. fold values. by rewrite Hfail. }
  eexists j, m', values_j, message, _.
  split; [done|]. split; [done|]. split; [done|]. split; [done|]. split; [done|].
  split; [done|]. split.
  - unfold handlePreviewChange. rewrite Hdyn, Hms. fold variables. rewrite Heval.
    unfold reportFailure, Evaluator.evaluationError.
    rewrite JSON_parse_stringify. reflexivity.
  - simpl. by rewrite Hdyn, Hms.
Qed.

End EvaluationFailure.

(** C7 on an editor whose second method is "P == V * I": the preview returns
    and reports method 2 (methods counted from 1 here). *)
Lemma malformed_method_fails_and_is_reported_witness :
  exists st',
    Editor.handlePreviewChange (list nat) Scenario.editorEval Wire.parse [] false
      Scenario.editorState = Js.Return st'
    /\ Editor.preview st' = "\text{Invalid Variables or Methods}"
    /\ Editor.finalAnsPreview st' = "\text{Invalid Variables or Methods}"
    /\ Editor.toasts st' =
         [Editor.ToastInvalidMethod Evaluator.malformedMessage 2
            "P == V * I" "P == V * I" "P == V * I"]
    /\ Editor.methodIssues st' = [[]; ["Invalid expression"]].
Proof.
  destruct (malformed_method_fails_and_is_reported (list nat) (list string)
              Scenario.declaredNames Js.trim Scenario.keepText Scenario.assignAlways
              Scenario.materialize0 Wire.stringify Wire.parse 1 parse_stringify
              [] false Scenario.editorState [Scenario.halve; Scenario.power] 1
              Scenario.power eq_refl eq_refl eq_refl)
    as (_ & j & m' & values_j & message & st' & _ & Hj & _ & Hkind & Hfirst & _
        & Hreport & Hpreview & Hfinal & Htoasts & _ & _ & _ & Hissues).
  - left. simpl. lia.
  - rewrite (Hfirst _ eq_refl) in Hj, Htoasts. injection Hj as <-.
    destruct Hkind as [[_ ->]|[Hone _]]; [|discriminate Hone].
    exists st'. split; [exact Hreport|]. split; [exact Hpreview|].
    split; [exact Hfinal|]. split; [exact Htoasts | exact Hissues].
Defined.

(** * Further properties of the embedded code *)

(** ** The endpoint: the excluded ids, writes, failures *)

Section EndpointFacts.
Import Schema Js Endpoint.

Lemma sameValueZero_eq (a b : number) : sameValueZero a b = true <-> a = b.
Proof.
  destruct a as [x|], b as [y|]; simpl; try (split; [done | done]).
  rewrite Z.eqb_eq. split; [by intros -> | by intros [= ->]].
Qed.

Lemma includes_number_elem (ids : list number) (x : number) :
  includes sameValueZero ids x = true <-> x ∈ ids.
Proof.
  unfold includes. rewrite existsb_exists, list_elem_of_In. split.
  - intros (y & Hin & Heq). apply sameValueZero_eq in Heq. by subst y.
  - intros Hin. exists x. split; [done | by apply sameValueZero_eq].
Qed.

Lemma excluded2025_NoDup : NoDup excluded2025QuestionIds.
Proof. by apply (bool_decide_unpack _). Qed.

Variable Rand : Type.
Variable RecommendQuestion :
  Database -> Rand -> option string -> Z -> completion (string * Question).
Variable CustomEval :
  Rand -> option (list QVariable) -> option (list Method) -> completion Evaluated.
Variable shuffleArray : Rand -> list Answer -> list Answer.

Local Abbreviation serve := (Endpoint.handler Rand RecommendQuestion CustomEval shuffleArray).

(** The outcome of a request, case by case: the query is refused, a stored
    row is served, or the other branch runs and either fails after its
    calls or creates one row. *)
Lemma handler_cases (env : Env Rand) (req : Request) (db : Database) :
  let excluded := excludedQuestionIds (queryPrevId req) in
  (validIds excluded = false
   /\ exists e, serve env req db = {| response := Throw e; database := db; calls := [] |})
  \/ (validIds excluded = true
      /\ exists row, findFirst req excluded db = Some row
         /\ serve env req db =
              {| response := Return {| servedInstance := row;
                                       servedQuestion := includeQuestion db row |};
                 database := db; calls := [] |})
  \/ (validIds excluded = true /\ findFirst req excluded db = None
      /\ exists cs,
          calls (serve env req db) = CalledRecommendQuestion (queryCourseSlug req) 0 :: cs
          /\ ((exists e, response (serve env req db) = Throw e
                         /\ database (serve env req db) = db
                         /\ forall row, CalledCreate row ∉ cs)
              \/ (exists served, response (serve env req db) = Return served))).
Proof.
  intros excluded. unfold Endpoint.handler, handlerM, bind, findFirstM, readDatabase. simpl.
  fold excluded. destruct (validIds excluded) eqn:Hvalid; simpl.
  2:{ left. split; [done|]. by eexists. }
  right. destruct (findFirst req excluded db) as [row|] eqn:Hfind; simpl.
  { left. split; [done|]. exists row. by split. }
  right. split; [done|]. split; [done|].
  unfold recommendAndCreate, bind, readDatabase, logged, ret, throw, create, throw. simpl.
  destruct (RecommendQuestion db (rnd env) (queryCourseSlug req) 0)
    as [[topicName q]|e]; simpl.
  2:{ eexists. split; [done|]. left. exists e. repeat split. intros row Hin.
      by apply elem_of_nil in Hin. }
  destruct (questionData q) as [qd|]; simpl.
  2:{ eexists. split; [done|]. left. eexists. repeat split. intros row Hin.
      by apply elem_of_nil in Hin. }
  destruct (variationId q =? 0)%Z; simpl.
  - destruct (CustomEval (rnd env) (variables qd) (methods qd)) as [ev|e]; simpl.
    2:{ eexists. split; [done|]. left. exists e. repeat split. intros row Hin.
        apply list_elem_of_In in Hin. simpl in Hin. by destruct Hin as [?|[]]. }
    destruct (sessionUserId req), (queryCourseSlug req), (answers qd); simpl;
      eexists; (split; [done|]);
      try (right; by eexists);
      left; eexists; repeat split; intros row Hin;
      apply list_elem_of_In in Hin; simpl in Hin; by destruct Hin as [?|[]].
  - destruct (sessionUserId req), (queryCourseSlug req), (answers qd); simpl;
      eexists; (split; [done|]);
      try (right; by eexists);
      left; eexists; repeat split; intros row Hin; by apply elem_of_nil in Hin.
Qed.


(** X1. Whatever [prevId] is, the excluded ids keep every hard-coded id,
    hold the number read from a non-empty [prevId], and never hold an id
    twice: the [prevId] is only pushed when it is not there yet. *)
Theorem excluded_ids_extend_the_list_without_duplicates (prevId : option string) :
  (forall n, n ∈ excluded2025QuestionIds -> n ∈ excludedQuestionIds prevId)
  /\ NoDup (excludedQuestionIds prevId)
  /\ (forall p, prevId = Some p -> truthy p = true ->
                parseInt p ∈ excludedQuestionIds prevId)
  /\ (forall n, n ∈ excludedQuestionIds prevId ->
                n ∈ excluded2025QuestionIds
                \/ exists p, prevId = Some p /\ truthy p = true /\ n = parseInt p).
Proof.
  unfold excludedQuestionIds.
  destruct prevId as [p|]; [destruct (truthy p) eqn:Hp|].
  - destruct (includes sameValueZero excluded2025QuestionIds (parseInt p)) eqn:Hin;
      cbn [negb].
    + apply includes_number_elem in Hin. repeat split; try done.
      * apply excluded2025_NoDup.
      * by intros p' [= <-] _.
      * intros n Hn. by left.
    + assert (parseInt p ∉ excluded2025QuestionIds) as Hnot.
      { intros H. apply includes_number_elem in H. congruence. }
      repeat split.
      * intros n Hn. apply elem_of_app. by left.
      * apply NoDup_app. split; [apply excluded2025_NoDup|]. split.
        -- intros x Hx Hx'. apply list_elem_of_singleton in Hx'. by subst x.
        -- apply NoDup_singleton.
      * intros p' [= <-] _. apply elem_of_app. right. by left.
      * intros n Hn. apply elem_of_app in Hn as [Hn|Hn]; [by left|].
        apply list_elem_of_singleton in Hn. right. by exists p.
  - repeat split; try done.
    + apply excluded2025_NoDup.
    + intros p' [= <-] Ht. congruence.
    + intros n Hn. by left.
  - repeat split; try done.
    + apply excluded2025_NoDup.
    + intros n Hn. by left.
Qed.

(** X2. A request writes at most one row: none when a stored instance is
    served, none when the request fails (the database is then exactly as it
    was, whatever was called before the failure), and exactly one, appended
    to the instances, when it succeeds after finding nothing; the other
    tables are never written. *)
Theorem handler_writes_one_row_or_nothing (env : Env Rand) (req : Request) (db : Database) :
  let out := serve env req db in
  (forall e, response out = Throw e -> database out = db)
  /\ (calls out = [] -> database out = db)
  /\ (forall served, response out = Return served -> calls out <> [] ->
       database out =
         {| questionWithAddedTime := (questionWithAddedTime db ++ [servedInstance served])%list;
            attempt := attempt db; question := question db; topic := topic db |}
       /\ CalledCreate (servedInstance served) ∈ calls out).
Proof.
  intros out. subst out.
  destruct (handler_cases env req db)
    as [(Hv & e & ->) | [(Hv & row & Hf & ->) | (Hv & Hf & cs & Hcalls & Hres)]]; simpl.
  - repeat split; try done.
  - repeat split; try done.
  - split; [|split].
    + intros e He. destruct Hres as [(e' & _ & Hdb & _) | (served & Hs)]; [done|].
      rewrite Hs in He. done.
    + intros Hnil. rewrite Hcalls in Hnil. done.
    + intros served Hs _.
      destruct (handler_fresh _ _ _ _ env req db served Hf Hs)
        as (t & q & qd & user & slug & stored & _ & _ & _ & _ & _ & _ & _ & Hdb & Hc).
      split; [done|]. rewrite Hc. apply elem_of_cons. right.
      apply elem_of_app. right. by left.
Qed.

(** X3. When the recommended question is dynamic and [CustomEval] throws,
    the request fails with that very error: no other question is tried,
    nothing is written, and the only calls made are the recommendation and
    the evaluation. *)
Theorem evaluator_error_is_the_response (env : Env Rand) (req : Request) (db : Database)
    (recommendedTopicName : string) (q : Question) (qd : QuestionData) (e : thrown) :
  validIds (excludedQuestionIds (queryPrevId req)) = true ->
  findFirst req (excludedQuestionIds (queryPrevId req)) db = None ->
  RecommendQuestion db (rnd env) (queryCourseSlug req) 0%Z = Return (recommendedTopicName, q) ->
  questionData q = Some qd ->
  variationId q = 0%Z ->
  CustomEval (rnd env) (variables qd) (methods qd) = Throw e ->
  serve env req db =
    {| response := Throw e;
       database := db;
       calls := [CalledRecommendQuestion (queryCourseSlug req) 0;
                 CalledCustomEval (variables qd) (methods qd)] |}.
Proof.
  intros Hvalid Hfind Hrec Hqd Hvar Hev.
  unfold Endpoint.handler, handlerM, bind, findFirstM, readDatabase. simpl.
  rewrite Hvalid. simpl. rewrite Hfind.
  unfold recommendAndCreate, bind, readDatabase, logged, ret, throw. simpl.
  rewrite Hrec. simpl. rewrite Hqd, Hvar. simpl. by rewrite Hev.
Qed.

(** X4. After a request created an instance, the same query finds that
    instance exactly when its question id is not excluded: it is then
    served again as it is, without any call; when the id is excluded the
    lookup still finds nothing and the next request asks [RecommendQuestion]
    again. *)
Theorem created_instance_is_found_unless_excluded
    (env env' : Env Rand) (req : Request) (db : Database) (served : Served) :
  let excluded := excludedQuestionIds (queryPrevId req) in
  let out := serve env req db in
  let row := servedInstance served in
  findFirst req excluded db = None ->
  response out = Return served ->
  (includes sameValueZero excluded (Num (qat_questionId row)) = false ->
   serve env' req (database out) =
     {| response := Return {| servedInstance := row;
                              servedQuestion := includeQuestion (database out) row |};
        database := database out;
        calls := [] |})
  /\ (includes sameValueZero excluded (Num (qat_questionId row)) = true ->
      findFirst req excluded (database out) = None
      /\ exists cs,
          calls (serve env' req (database out))
          = CalledRecommendQuestion (queryCourseSlug req) 0 :: cs).
Proof.
  intros excluded out row Hfind Hs.
  destruct (handler_fresh _ _ _ _ env req db served Hfind Hs)
    as (t & q & qd & user & slug & stored & _ & _ & Hu & Hsl & _ & Hrow & _ & Hdb & _).
  fold out in Hdb. fold row in Hrow, Hdb.
  assert (validIds excluded = true) as Hvalid.
  { destruct (handler_cases env req db) as [(Hv & e & Heq) | [(Hv & _) | (Hv & _)]];
      try done.
    fold out in Heq. rewrite Heq in Hs. done. }
  assert (List.filter (whereClause req excluded) (questionWithAddedTime db) = []) as Hnone.
  { unfold findFirst in Hfind. by apply newest_None in Hfind. }
  assert (whereClause req excluded row
          = negb (includes sameValueZero excluded (Num (qat_questionId row)))) as Hw.
  { unfold whereClause, columnIs. rewrite Hu, Hsl, Hrow. simpl.
    by rewrite !String.eqb_refl. }
  assert (findFirst req excluded (database out)
          = if includes sameValueZero excluded (Num (qat_questionId row))
            then None else Some row) as Hnext.
  { unfold findFirst. rewrite Hdb. simpl. rewrite List.filter_app, Hnone. simpl.
    rewrite Hw. by destruct (includes _ _ _). }
  split; intros Hex; rewrite Hex in Hnext.
  - by apply handler_stored.
  - split; [done|].
    destruct (handler_cases env' req (database out))
      as [(Hv & _) | [(_ & r & Hf & _) | (_ & _ & cs & Hc & _)]].
    + fold excluded in Hv. congruence.
    + fold excluded in Hf. congruence.
    + by exists cs.
Qed.

(** The ids are valid unless a non-empty [prevId] does not read as a
    number. *)
Lemma validIds_excluded (prevId : option string) :
  validIds (excludedQuestionIds prevId) = true
  <-> forall p, prevId = Some p -> truthy p = true -> parseInt p <> NaN.
Proof.
  unfold validIds, excludedQuestionIds.
  destruct prevId as [p|]; [|by split].
  destruct (truthy p) eqn:Hp; [|by split; [intros _ ? [= <-]; congruence|]].
  destruct (parseInt p) as [z|] eqn:Hz.
  - split; [by intros _ ? [= <-] _; rewrite Hz|]. intros _.
    destruct (negb (includes sameValueZero excluded2025QuestionIds (Num z))); [|done].
    unfold includes. by rewrite existsb_app.
  - split; [done|]. intros H. by destruct (H p eq_refl Hp).
Qed.

(** X5. A request that reaches the handler without a session, with a
    [prevId] that, when given, is a number, puts no condition on the user:
    whenever the course has a stored instance that is not excluded, of
    whatever user, the most recent of them is served, without any call and
    without writing. *)
Theorem lookup_without_session_ignores_the_user
    (env : Env Rand) (req : Request) (db : Database) (slug : string)
    (r : QuestionWithAddedTime) :
  let excluded := excludedQuestionIds (queryPrevId req) in
  let notExcluded (x : QuestionWithAddedTime) :=
    includes sameValueZero excluded (Num (qat_questionId x)) = false in
  sessionUserId req = None ->
  queryCourseSlug req = Some slug ->
  validIds excluded = true ->
  r ∈ questionWithAddedTime db -> courseSlug r = slug -> notExcluded r ->
  exists row,
    serve env req db =
      {| response := Return {| servedInstance := row;
                               servedQuestion := includeQuestion db row |};
         database := db; calls := [] |}
    /\ row ∈ questionWithAddedTime db /\ courseSlug row = slug /\ notExcluded row
    /\ (forall r', r' ∈ questionWithAddedTime db -> courseSlug r' = slug -> notExcluded r' ->
                   (addedTime r' <= addedTime row)%Z).
Proof.
  intros excluded notExcluded Hu Hs Hvalid Hin Hrs Hrx.
  assert (forall x, whereClause req excluded x = true
                    <-> courseSlug x = slug /\ notExcluded x) as Hw.
  { intros x. unfold whereClause, columnIs, notExcluded. rewrite Hu, Hs. simpl.
    rewrite andb_true_iff, String.eqb_eq, negb_true_iff.
    split; intros [? ?]; by subst. }
  destruct (findFirst_finds req excluded db r Hin) as [row Hrow]; [by apply Hw|].
  exists row. split; [by apply handler_stored|].
  apply findFirst_Some in Hrow as (Hrin & Hroww & Hmax).
  apply Hw in Hroww as [? ?]. repeat split; try done.
  intros r' Hr' Hs' Hx'. apply Hmax; [done|]. by apply Hw.
Qed.

(** X6. An instance the endpoint serves without creating one is a stored
    instance whose question id is not among the excluded ids. *)
Theorem instance_served_without_creating_is_not_excluded
    (env : Env Rand) (req : Request) (db : Database) (served : Served) :
  response (serve env req db) = Return served ->
  (forall row, CalledCreate row ∉ calls (serve env req db)) ->
  servedInstance served ∈ questionWithAddedTime db
  /\ includes sameValueZero (excludedQuestionIds (queryPrevId req))
       (Num (qat_questionId (servedInstance served))) = false.
Proof.
  intros Hs Hnot.
  destruct (handler_cases env req db)
    as [(Hv & e & Heq) | [(Hv & row & Hf & Heq) | (Hv & Hf & _)]].
  - rewrite Heq in Hs. done.
  - rewrite Heq in Hs. injection Hs as <-. simpl. split.
    + by apply findFirst_Some in Hf as (? & _).
    + by apply (stored_instance_not_excluded Rand env req db).
  - destruct (handler_fresh _ _ _ _ env req db served Hf Hs)
      as (t & q & qd & user & slug & stored & _ & _ & _ & _ & _ & _ & _ & _ & Hc).
    destruct (Hnot (servedInstance served)). rewrite Hc.
    apply elem_of_cons. right. apply elem_of_app. right. by left.
Qed.

End EndpointFacts.

(** On Ann's request a dynamic question is recommended and its evaluation
    fails. *)
Lemma evaluator_error_is_the_response_witness :
  Endpoint.handler (list nat) (Scenario.recommendAlways Scenario.question12)
    (Samples.evalFails Samples.divisionByZero) Scenario.shuffle
    Scenario.env0 (Scenario.requestOf "ann" None) Scenario.emptyDatabase
  = {| Endpoint.response := Js.Throw Samples.divisionByZero;
       Endpoint.database := Scenario.emptyDatabase;
       Endpoint.calls :=
         [Endpoint.CalledRecommendQuestion (Some "welcome-quiz") 0;
          Endpoint.CalledCustomEval (Some [Scenario.voltage]) (Some [Scenario.halve])] |}.
Proof.
  apply (evaluator_error_is_the_response (list nat)
           (Scenario.recommendAlways Scenario.question12)
           (Samples.evalFails Samples.divisionByZero) Scenario.shuffle
           Scenario.env0 (Scenario.requestOf "ann" None) Scenario.emptyDatabase
           "Ohm's Law" Scenario.question12 Scenario.dynamicData Samples.divisionByZero);
    reflexivity.
Defined.

(** Ann is given question 5; her next request finds the instance created. *)
Lemma created_instance_is_found_unless_excluded_witness :
  let serve :=
    Endpoint.handler (list nat) (Scenario.recommendAlways Scenario.question5)
      (Scenario.evalAlways Scenario.evaluated0) Scenario.shuffle in
  let req := Scenario.requestOf "ann" None in
  let out := serve Scenario.env0 req Scenario.emptyDatabase in
  exists served,
    Endpoint.response out = Js.Return served
    /\ Endpoint.response (serve Scenario.env0 req (Endpoint.database out))
       = Js.Return {| Endpoint.servedInstance := Endpoint.servedInstance served;
                      Endpoint.servedQuestion :=
                        Endpoint.includeQuestion (Endpoint.database out)
                          (Endpoint.servedInstance served) |}
    /\ Endpoint.calls (serve Scenario.env0 req (Endpoint.database out)) = [].
Proof.
  intros serve req out. eexists. split; [reflexivity|].
  destruct (created_instance_is_found_unless_excluded (list nat)
              (Scenario.recommendAlways Scenario.question5)
              (Scenario.evalAlways Scenario.evaluated0) Scenario.shuffle
              Scenario.env0 Scenario.env0 req Scenario.emptyDatabase _ eq_refl eq_refl)
    as [Hfound _].
  split; [exact (f_equal Endpoint.response (Hfound eq_refl))
         | exact (f_equal Endpoint.calls (Hfound eq_refl))].
Defined.

(** Without a session, Ann's instance of question 5 is served. *)
Lemma lookup_without_session_ignores_the_user_witness :
  exists row,
    Endpoint.response
      (Endpoint.handler (list nat) (Scenario.recommendAlways Scenario.question7)
         (Scenario.evalAlways Scenario.evaluated0) Scenario.shuffle
         Scenario.env0 Samples.anonymousRequest Scenario.annDatabase)
    = Js.Return {| Endpoint.servedInstance := row;
                   Endpoint.servedQuestion :=
                     Endpoint.includeQuestion Scenario.annDatabase row |}
    /\ Schema.courseSlug row = "welcome-quiz".
Proof.
  destruct (lookup_without_session_ignores_the_user (list nat)
              (Scenario.recommendAlways Scenario.question7)
              (Scenario.evalAlways Scenario.evaluated0) Scenario.shuffle
              Scenario.env0 Samples.anonymousRequest Scenario.annDatabase
              "welcome-quiz" Scenario.annRow5)
    as (row & Hserve & _ & Hslug & _); try reflexivity.
  - apply list_elem_of_In. simpl. auto.
  - exists row. rewrite Hserve. by split.
Defined.

(** Ann's stored instance of question 5 is served without a creation. *)
Lemma instance_served_without_creating_is_not_excluded_witness :
  Js.includes Js.sameValueZero (Endpoint.excludedQuestionIds None)
    (Js.Num (Schema.qat_questionId Scenario.annRow5)) = false.
Proof.
  apply (instance_served_without_creating_is_not_excluded (list nat)
           (Scenario.recommendAlways Scenario.question7)
           (Scenario.evalAlways Scenario.evaluated0) Scenario.shuffle
           Scenario.env0 (Scenario.requestOf "ann" None) Scenario.annDatabase
           {| Endpoint.servedInstance := Scenario.annRow5;
              Endpoint.servedQuestion :=
                Endpoint.includeQuestion Scenario.annDatabase Scenario.annRow5 |}).
  - reflexivity.
  - intros row Hin. by apply elem_of_nil in Hin.
Defined.

(** ** The quiz page: marking, the two option groups, the session *)

Section QuizFacts.
Import Schema Quiz QuizForm.

Lemma filter_Permutation_bool {A : Type} (f : A -> bool) (l k : list A) :
  l ≡ₚ k -> List.filter f l ≡ₚ List.filter f k.
Proof.
  induction 1 as [|x l k _ IH|x y l|l k m _ IH1 _ IH2]; simpl.
  - done.
  - destruct (f x); [by constructor | done].
  - destruct (f x), (f y); try done. by constructor.
  - by etrans.
Qed.

Lemma correctKeys_Permutation (options options' : list Answer) :
  options ≡ₚ options' -> correctKeys options ≡ₚ correctKeys options'.
Proof.
  intros H. unfold correctKeys. apply Permutation_map. by apply filter_Permutation_bool.
Qed.

Lemma isCorrectSelection_true (selected correct : list string) :
  isCorrectSelection selected correct = true
  <-> length selected = length correct /\ (forall x, x ∈ selected -> x ∈ correct).
Proof.
  unfold isCorrectSelection. by rewrite andb_true_iff, Nat.eqb_eq, every_includes.
Qed.

Lemma find_head_filter {A : Type} (f : A -> bool) (l : list A) :
  List.find f l = head (List.filter f l).
Proof. induction l as [|x l IH]; simpl; [done|]. by destruct (f x). Qed.

(** X7. The mark of a selection depends neither on the order in which the
    keys were selected nor on the order of the answer options: it is the
    same for the options as stored in the question and as shuffled into an
    instance. *)
Theorem marking_ignores_the_order (selected selected' : list string)
    (options options' : list Answer) :
  selected ≡ₚ selected' ->
  options ≡ₚ options' ->
  isCorrectSelection selected (correctKeys options)
  = isCorrectSelection selected' (correctKeys options').
Proof.
  intros Hs Ho. apply correctKeys_Permutation in Ho.
  apply eq_true_iff_eq. rewrite !isCorrectSelection_true.
  rewrite (Permutation_length Hs), (Permutation_length Ho).
  split; intros [Hlen Hsub]; (split; [done|]); intros x Hx.
  - rewrite <- Ho. apply Hsub. by rewrite Hs.
  - rewrite Ho. apply Hsub. by rewrite <- Hs.
Qed.

(** X8. When exactly one option is correct the page shows a radio group;
    what its handler logs for a picked value is what the form submits as
    [isCorrect] for that value, and both say that the value is the key of
    the correct option. *)
Theorem radio_pick_is_marked_as_logged (options : list Answer) (value : string) :
  isRadio options = true ->
  exists item,
    List.find isCorrect options = Some item
    /\ correctKeys options = [key item]
    /\ radioLogged options value = isCorrectSelection [value] (correctKeys options)
    /\ (isCorrectSelection [value] (correctKeys options) = true <-> value = key item).
Proof.
  unfold isRadio, radioLogged, correctKeys. rewrite Nat.eqb_eq, length_map.
  rewrite find_head_filter. intros Hone.
  destruct (List.filter isCorrect options) as [|item [|? ?]]; try done.
  exists item. simpl. repeat split.
  - unfold isCorrectSelection, Js.includes. simpl. by rewrite orb_false_r, andb_true_r.
  - unfold isCorrectSelection, Js.includes. simpl.
    rewrite orb_false_r, andb_true_r. apply String.eqb_eq.
  - intros ->. unfold isCorrectSelection, Js.includes. simpl.
    by rewrite String.eqb_refl.
Qed.



(** X10. A static question whose answers pass the editor's checks remains
    answerable in every instance made of it: however its options were
    shuffled, the instance has a correct option, and submitting the keys of
    the correct options is sent and marked correct. *)
Theorem validated_answers_stay_answerable (answers : list Answer) (data : UcqatData) :
  EditorForm.answersIssues answers = [] ->
  qat_answers (instance data) ≡ₚ answers ->
  correctKeys (qat_answers (instance data)) <> []
  /\ exists query body,
      onSubmit (correctKeys answers) data = SubmitAnswer query body
      /\ sb_isCorrect body = true.
Proof.
  unfold EditorForm.answersIssues. intros Hvalid Hperm.
  apply app_eq_nil in Hvalid as [_ Hvalid]. apply app_eq_nil in Hvalid as [_ Hone].
  destruct (Nat.leb_spec 1 (length (List.filter isCorrect answers))) as [Hlen|]; [|done].
  assert (length (correctKeys answers) >= 1)%nat as Hkeys
    by (unfold correctKeys; by rewrite length_map).
  pose proof (correctKeys_Permutation _ _ Hperm) as Hck.
  split.
  - intros Hnil. rewrite Hnil in Hck. apply Permutation_length in Hck. simpl in Hck. lia.
  - unfold onSubmit.
    destruct (correctKeys answers) as [|k ks] eqn:Hks; [simpl in Hkeys; lia|].
    simpl length. simpl Nat.eqb. eexists _, _. split; [reflexivity|]. simpl.
    apply isCorrectSelection_true. split.
    + symmetry. by apply Permutation_length.
    + intros x Hx. by rewrite Hck.
Qed.

End QuizFacts.

Lemma marking_ignores_the_order_witness :
  Quiz.isCorrectSelection ["k2"; "k1"] (Quiz.correctKeys Scenario.fourOptions)
  = Quiz.isCorrectSelection ["k1"; "k2"]
      (Quiz.correctKeys (CustomMath.shuffleArray [3; 1; 4]%nat Scenario.fourOptions)).
Proof.
  apply marking_ignores_the_order.
  - apply perm_swap.
  - symmetry. apply (shuffleArray_Permutation (A := Schema.Answer)).
Defined.

Lemma radio_pick_is_marked_as_logged_witness :
  exists item,
    List.find Schema.isCorrect Samples.trueOrFalse = Some item
    /\ Quiz.correctKeys Samples.trueOrFalse = [Schema.key item]
    /\ QuizForm.radioLogged Samples.trueOrFalse "f"
       = Quiz.isCorrectSelection ["f"] (Quiz.correctKeys Samples.trueOrFalse)
    /\ (Quiz.isCorrectSelection ["f"] (Quiz.correctKeys Samples.trueOrFalse) = true
        <-> "f" = Schema.key item).
Proof. apply (radio_pick_is_marked_as_logged Samples.trueOrFalse "f"). reflexivity. Defined.

Lemma validated_answers_stay_answerable_witness :
  Quiz.correctKeys (Schema.qat_answers (Quiz.instance Scenario.ucqat5)) <> []
  /\ exists query body,
      Quiz.onSubmit (Quiz.correctKeys Scenario.fourOptions) Scenario.ucqat5
      = Quiz.SubmitAnswer query body
      /\ Quiz.sb_isCorrect body = true.
Proof.
  apply (validated_answers_stay_answerable Scenario.fourOptions Scenario.ucqat5);
    reflexivity.
Defined.

(** ** The verification tokens *)

Section AdapterFacts.
Import Adapter.

Lemma deleteMany_removes (who : string) (table : list VerificationToken) :
  List.filter (fun t => String.eqb (identifier t) who) (deleteMany who table) = [].
Proof.
  unfold deleteMany. induction table as [|t table IH]; simpl; [done|].
  destruct (String.eqb (identifier t) who) eqn:Ht; simpl; [done|]. by rewrite Ht.
Qed.

Lemma deleteMany_keeps (who other : string) (table : list VerificationToken) :
  other <> who ->
  List.filter (fun t => String.eqb (identifier t) other) (deleteMany who table)
  = List.filter (fun t => String.eqb (identifier t) other) table.
Proof.
  intros Hne. unfold deleteMany. induction table as [|t table IH]; simpl; [done|].
  destruct (String.eqb_spec (identifier t) who) as [Heq|Hneq]; simpl.
  - destruct (String.eqb_spec (identifier t) other) as [Heq'|_]; [congruence | done].
  - destruct (String.eqb (identifier t) other); by rewrite IH.
Qed.

Lemma sublist_map {A B : Type} (f : A -> B) (l k : list A) :
  sublist l k -> sublist (map f l) (map f k).
Proof. induction 1; simpl; by constructor. Qed.

Lemma deleteMany_sublist (who : string) (table : list VerificationToken) :
  sublist (deleteMany who table) table.
Proof.
  unfold deleteMany. induction table as [|t table IH]; simpl; [done|].
  destruct (negb _); by constructor.
Qed.

Lemma findUnique_after_delete (data : VerificationToken) (table : list VerificationToken) :
  findUnique (identifier data) (token data)
    (deleteMany (identifier data) table ++ [data])%list = Some data.
Proof.
  unfold findUnique, deleteMany. induction table as [|t table IH]; simpl.
  - by rewrite !String.eqb_refl.
  - destruct (String.eqb (identifier t) (identifier data)) eqn:Ht; simpl; [done|].
    by rewrite Ht.
Qed.

(** X11. When [createVerificationToken] succeeds, the new token is the only
    token left for its identifier, and the tokens of every other identifier
    are the ones that were there, in the same order. *)
Theorem new_token_replaces_those_of_its_identifier
    (data created : VerificationToken) (table table' : list VerificationToken) :
  createVerificationToken data table = (Ok created, table') ->
  created = data
  /\ List.filter (fun t => String.eqb (identifier t) (identifier data)) table' = [data]
  /\ (forall other, other <> identifier data ->
        List.filter (fun t => String.eqb (identifier t) other) table'
        = List.filter (fun t => String.eqb (identifier t) other) table).
Proof.
  unfold createVerificationToken, create.
  destruct (existsb _ _); [done|]. intros [= <- <-]. split; [done|]. split.
  - rewrite List.filter_app, deleteMany_removes. simpl. by rewrite String.eqb_refl.
  - intros other Hne. rewrite List.filter_app, deleteMany_keeps by done. simpl.
    destruct (String.eqb_spec (identifier data) other); [congruence|].
    by rewrite app_nil_r.
Qed.

(** X12. A token that was created is found by [useVerificationToken], and
    using it does not delete it: the table is unchanged, so the same link
    works again. *)
Theorem used_token_is_not_consumed
    (data created : VerificationToken) (table table' : list VerificationToken) :
  createVerificationToken data table = (Ok created, table') ->
  useVerificationToken (identifier data) (token data) table' = (Ok (Some data), table')
  /\ useVerificationToken (identifier data) (token data)
       (snd (useVerificationToken (identifier data) (token data) table'))
     = (Ok (Some data), table').
Proof.
  unfold createVerificationToken, create.
  destruct (existsb _ _); [done|]. intros [= <- <-].
  unfold useVerificationToken. simpl. by rewrite findUnique_after_delete.
Qed.

(** X13. [createVerificationToken] keeps the tokens distinct and, if no
    identifier had two tokens, leaves it so, whether the creation succeeds
    or is refused. *)
Theorem token_table_stays_unique (data : VerificationToken) (table : list VerificationToken) :
  let table' := snd (createVerificationToken data table) in
  (NoDup (map token table) -> NoDup (map token table'))
  /\ (NoDup (map identifier table) -> NoDup (map identifier table')).
Proof.
  unfold createVerificationToken, create.
  pose proof (deleteMany_sublist (identifier data) table) as Hsub.
  destruct (existsb _ (deleteMany (identifier data) table)) eqn:Hex; simpl.
  - split; intros H; eapply sublist_NoDup; try exact H; by apply sublist_map.
  - split; intros H.
    + rewrite map_app. apply NoDup_app. split; [|split].
      * eapply sublist_NoDup; [exact H | by apply sublist_map].
      * intros x Hx Hx'. apply list_elem_of_singleton in Hx'. subst x.
        apply list_elem_of_In, in_map_iff in Hx as (t & Ht & Hin).
        assert (existsb (fun t => String.eqb (token t) (token data))
                  (deleteMany (identifier data) table) = true) as Hyes.
        { apply existsb_exists. exists t. split; [done|]. by apply String.eqb_eq. }
        congruence.
      * apply NoDup_singleton.
    + rewrite map_app. apply NoDup_app. split; [|split].
      * eapply sublist_NoDup; [exact H | by apply sublist_map].
      * intros x Hx Hx'. apply list_elem_of_singleton in Hx'. subst x.
        apply list_elem_of_In, in_map_iff in Hx as (t & Ht & Hin).
        unfold deleteMany in Hin. apply filter_In in Hin as [_ Hin].
        apply negb_true_iff, String.eqb_neq in Hin. done.
      * apply NoDup_singleton.
Qed.

(** X14. The deletion and the creation are two separate calls: when the
    text of the new token is already stored for another identifier, the
    creation is refused with P2002 after the tokens of the identifier were
    deleted, and the identifier is left with no token at all. *)
Theorem refused_token_leaves_the_identifier_without_token
    (data other : VerificationToken) (table : list VerificationToken) :
  other ∈ table ->
  token other = token data ->
  identifier other <> identifier data ->
  exists e,
    createVerificationToken data table = (Failed e, deleteMany (identifier data) table)
    /\ code e = Some "P2002"
    /\ List.filter (fun t => String.eqb (identifier t) (identifier data))
         (deleteMany (identifier data) table) = []
    /\ (forall tok,
          fst (useVerificationToken (identifier data) tok (deleteMany (identifier data) table))
          = Ok None).
Proof.
  intros Hin Htok Hid. unfold createVerificationToken, create.
  assert (existsb (fun t => String.eqb (token t) (token data))
            (deleteMany (identifier data) table) = true) as ->.
  { apply existsb_exists. exists other. split; [|by apply String.eqb_eq].
    unfold deleteMany. apply filter_In. split; [by apply list_elem_of_In|].
    by apply negb_true_iff, String.eqb_neq. }
  eexists. split; [reflexivity|]. split; [reflexivity|]. split.
  - apply deleteMany_removes.
  - intros tok. unfold useVerificationToken, findUnique. simpl.
    assert (forall l, List.filter (fun t => String.eqb (identifier t) (identifier data)) l = []
                      -> List.find (fun t => String.eqb (identifier t) (identifier data)
                                             && String.eqb (token t) tok) l = None) as Hnone.
    { clear. induction l as [|t l IH]; simpl; [done|].
      destruct (String.eqb (identifier t) (identifier data)); simpl; [done | exact IH]. }
    by rewrite Hnone by apply deleteMany_removes.
Qed.

End AdapterFacts.

Lemma new_token_replaces_those_of_its_identifier_witness :
  List.filter (fun t => String.eqb (Adapter.identifier t) "ann@u.nus.edu")
    (snd (Adapter.createVerificationToken Samples.annToken2 Samples.tokens))
  = [Samples.annToken2].
Proof.
  apply (new_token_replaces_those_of_its_identifier Samples.annToken2 Samples.annToken2
           Samples.tokens _ eq_refl).
Defined.

Lemma used_token_is_not_consumed_witness :
  Adapter.useVerificationToken "ann@u.nus.edu" "t-2"
    (snd (Adapter.createVerificationToken Samples.annToken2 Samples.tokens))
  = (Adapter.Ok (Some Samples.annToken2),
     snd (Adapter.createVerificationToken Samples.annToken2 Samples.tokens)).
Proof.
  apply (used_token_is_not_consumed Samples.annToken2 Samples.annToken2
           Samples.tokens _ eq_refl).
Defined.

Lemma refused_token_leaves_the_identifier_without_token_witness :
  exists e,
    Adapter.createVerificationToken Samples.annTokenClash Samples.tokens
    = (Adapter.Failed e, [Samples.bobToken])
    /\ Adapter.code e = Some "P2002".
Proof.
  destruct (refused_token_leaves_the_identifier_without_token Samples.annTokenClash
              Samples.bobToken Samples.tokens)
    as (e & Hcreate & Hcode & _); try done.
  - apply list_elem_of_In. simpl. auto.
  - exists e. by split.
Defined.

(** ** Inviting a user *)

Section AddUserFacts.
Import Js AddUser.

Lemma find_email_None (e : string) (users : list User) :
  List.find (fun u => String.eqb (email u) e) users = None
  <-> (forall u, u ∈ users -> email u <> e).
Proof.
  induction users as [|u users IH]; simpl.
  - split; [|done]. intros _ u Hu. by apply elem_of_nil in Hu.
  - destruct (String.eqb_spec (email u) e) as [Heq|Hne].
    + split; [done|]. intros H. destruct (H u); [by left | done].
    + rewrite IH. split.
      * intros H v Hv. apply elem_of_cons in Hv as [->|Hv]; [done | by apply H].
      * intros H v Hv. apply H. by right.
Qed.

Lemma findFirst_email (e : string) (users : list User) :
  findFirst (Some e) users = List.find (fun u => String.eqb (email u) e) users.
Proof.
  unfold findFirst. induction users as [|u users IH]; simpl; [done|].
  rewrite (String.eqb_sym e). by destruct (String.eqb (email u) e).
Qed.

Lemma find_email_app (e : string) (users : list User) (u : User) :
  email u = e ->
  exists found, List.find (fun v => String.eqb (email v) e) (users ++ [u])%list = Some found.
Proof.
  intros He. induction users as [|v users IH]; simpl.
  - rewrite He, String.eqb_refl. by eexists.
  - destruct (String.eqb (email v) e); [by eexists | done].
Qed.

(** X15. An email that no user has, when neither it nor the new id is taken
    as a username or id, is answered 201 and adds exactly one user, after
    the others: a new user named after the email, with no points and no
    login streak. *)
Theorem new_email_adds_one_user (env : Env) (e : string) (users : list User) :
  (forall u, u ∈ users -> email u <> e /\ username u <> e /\ id u <> newId env) ->
  exists body,
    handler env (Some e) users = (Return (201%Z, body), (users ++ [invited env e])%list)
    /\ addedToUsers body = true
    /\ email (invited env e) = e /\ username (invited env e) = e
    /\ points (invited env e) = 0%Z /\ loginStreak (invited env e) = 0%Z
    /\ isNewUser (invited env e) = true /\ role (invited env e) = USER.
Proof.
  intros Hfree. unfold handler, upsert. rewrite findFirst_email.
  assert (List.find (fun u => String.eqb (email u) e) users = None) as ->.
  { apply find_email_None. intros u Hu. by apply Hfree. }
  assert (existsb (fun u => String.eqb (username u) e || String.eqb (id u) (newId env)) users
          = false) as ->.
  { apply not_true_is_false. rewrite existsb_exists. intros (u & Hu & Hor).
    apply list_elem_of_In, Hfree in Hu as (_ & Hn & Hi).
    apply orb_true_iff in Hor as [H|H]; apply String.eqb_eq in H; done. }
  eexists. by repeat split.
Qed.

(** X16. Once a request for an email was answered, every later request for
    that email is answered "already invited" and leaves the users as they
    are. *)
Theorem invited_email_is_not_added_again
    (env env' : Env) (e : string) (users users' : list User) (answer : Z * Body) :
  handler env (Some e) users = (Return answer, users') ->
  handler env' (Some e) users' = (Return alreadyInvited, users').
Proof.
  unfold handler at 1. rewrite findFirst_email. unfold upsert.
  destruct (List.find (fun u => String.eqb (email u) e) users) as [u|] eqn:Hfind.
  - intros [= <- <-]. unfold handler. by rewrite findFirst_email, Hfind.
  - destruct (existsb _ users); [done|]. intros [= <- <-].
    unfold handler. rewrite findFirst_email.
    by destruct (find_email_app e users (invited env e) eq_refl) as [found ->].
Qed.

(** X17. Whatever the request, the handler never changes or removes a user:
    the users after it are the users before it, followed by at most one new
    user; and ids, usernames and emails stay distinct. *)
Theorem handler_only_appends_and_keeps_columns_unique
    (env : Env) (queryEmail : option string) (users : list User) :
  let users' := snd (handler env queryEmail users) in
  (users' = users \/ exists u, users' = (users ++ [u])%list)
  /\ (uniqueColumns users -> uniqueColumns users').
Proof.
  unfold handler, upsert.
  destruct (findFirst queryEmail users) as [u|] eqn:Hfirst; simpl; [by split; [left|]|].
  destruct queryEmail as [e|]; simpl; [|by split; [left|]].
  rewrite findFirst_email in Hfirst. rewrite Hfirst.
  destruct (existsb _ users) eqn:Hex; simpl; [by split; [left|]|].
  split; [right; by eexists|].
  intros (Hid & Hname & Hmail).
  assert (forall u, u ∈ users -> username u <> e /\ id u <> newId env) as Hfree.
  { intros u Hu. apply list_elem_of_In in Hu.
    split; intros Heq; apply (eq_true_false_abs _ (eq_refl true));
      rewrite <- Hex; symmetry; apply existsb_exists; exists u; (split; [done|]);
      apply orb_true_iff; [left | right]; by apply String.eqb_eq. }
  rewrite find_email_None in Hfirst.
  unfold uniqueColumns. rewrite !map_app. simpl.
  repeat split; apply NoDup_app; (split; [done|]); (split; [|apply NoDup_singleton]);
    intros x Hx Hx'; apply list_elem_of_singleton in Hx'; subst x;
    apply list_elem_of_In, in_map_iff in Hx as (u & Hu & Hin);
    apply list_elem_of_In in Hin.
  - by apply (proj2 (Hfree u Hin)).
  - by apply (proj1 (Hfree u Hin)).
  - by apply (Hfirst u Hin).
Qed.

(** X18. A request without an email puts no condition on the lookup: as
    soon as there is any user it is answered "already invited"; with no
    user at all the upsert is refused and the request fails. In both cases
    the users are left as they are. *)
Theorem missing_email_is_answered_as_invited (env : Env) (users : list User) :
  (users <> [] -> handler env None users = (Return alreadyInvited, users))
  /\ (users = [] -> exists e, handler env None users = (Throw e, users)).
Proof.
  unfold handler, findFirst, upsert. split.
  - destruct users as [|u users]; [done|]. by intros _.
  - intros ->. by eexists.
Qed.

End AddUserFacts.

Lemma new_email_adds_one_user_witness :
  exists body,
    AddUser.handler Samples.inviteEnv (Some "ann@u.nus.edu") [Samples.bobUser]
    = (Js.Return (201%Z, body),
       [Samples.bobUser; AddUser.invited Samples.inviteEnv "ann@u.nus.edu"])
    /\ AddUser.addedToUsers body = true.
Proof.
  destruct (new_email_adds_one_user Samples.inviteEnv "ann@u.nus.edu" [Samples.bobUser])
    as (body & Hh & Hadded & _).
  - intros u Hu. apply list_elem_of_singleton in Hu. subst u. by repeat split.
  - exists body. by split.
Defined.

Lemma invited_email_is_not_added_again_witness :
  AddUser.handler Samples.inviteEnv (Some "ann@u.nus.edu")
    (snd (AddUser.handler Samples.inviteEnv (Some "ann@u.nus.edu") [Samples.bobUser]))
  = (Js.Return AddUser.alreadyInvited,
     snd (AddUser.handler Samples.inviteEnv (Some "ann@u.nus.edu") [Samples.bobUser])).
Proof.
  eapply (invited_email_is_not_added_again Samples.inviteEnv Samples.inviteEnv
            "ann@u.nus.edu" [Samples.bobUser]).
  reflexivity.
Defined.

(** ** The course list and the descriptions of its cards *)

Section CoursesFacts.
Import Schema Courses.

(** The optional "/" of the pattern adds nothing: a "/" is itself a
    character other than ">". *)
Lemma opensTag_startsRun (rest : string) : opensTag rest = startsRun rest.
Proof.
  unfold opensTag. destruct rest as [|c rest]; simpl; [done|].
  destruct (isGreaterThan c) eqn:Hc; simpl.
  - rewrite orb_false_r. destruct c as [[] [] [] [] [] [] [] []]; try done.
  - apply orb_true_r.
Qed.

Lemma strip_length (s : string) :
  forall inTag, (String.length (strip inTag s) <= String.length s)%nat.
Proof.
  induction s as [|c rest IH]; intros inTag; simpl; [done|].
  destruct inTag.
  - destruct (isGreaterThan c); etrans; [apply IH | lia | apply IH | lia].
  - destruct (isLessThan c && opensTag rest); simpl.
    + etrans; [apply IH | lia].
    + specialize (IH false). lia.
Qed.

Lemma strip_no_tag (s : string) : forall inTag, hasTag (strip inTag s) = false.
Proof.
  induction s as [|c rest IH]; intros inTag; simpl; [done|].
  destruct inTag.
  - destruct (isGreaterThan c); apply IH.
  - destruct (isLessThan c && opensTag rest) eqn:Hopen; simpl; [apply IH|].
    rewrite IH, orb_false_r. rewrite opensTag_startsRun in Hopen.
    destruct (isLessThan c); simpl in *; [|done].
    destruct rest as [|d rest]; simpl in *; [done|].
    apply negb_false_iff in Hopen.
    assert (isLessThan d = false) as Hd.
    { unfold isGreaterThan, isLessThan in *. apply Ascii.eqb_eq in Hopen. by subst d. }
    rewrite Hd. simpl. by rewrite Hopen.
Qed.

Lemma strip_unchanged (s : string) : stripTags s = s <-> hasTag s = false.
Proof.
  unfold stripTags. induction s as [|c rest IH]; simpl; [done|].
  rewrite opensTag_startsRun.
  destruct (isLessThan c && startsRun rest) eqn:Hopen; simpl.
  - split; [|done]. intros Heq. pose proof (strip_length rest true) as Hlen.
    rewrite Heq in Hlen. simpl in Hlen. lia.
  - rewrite <- IH. split; [by intros [= ->] | by intros ->].
Qed.

(** X19. The four carousels of the course list show every course exactly
    once: the cards of the quizzes and of the three levels, put together,
    are the courses; and the three cards of the welcome page hold every
    topic exactly once. *)
Theorem every_course_and_topic_is_listed_once
    (courses : list Course) (topics : list Topic) :
  (quizCourses courses ++ contentCourses Foundational courses
   ++ contentCourses Intermediate courses ++ contentCourses Advanced courses)%list
  ≡ₚ courses
  /\ (exists page,
       render (Some courses) = Some page
       /\ map slug (quizzes page ++ foundational page ++ intermediate page ++ advanced page)%list
          ≡ₚ map courseSlug courses)
  /\ (topicsOfLevel Foundational topics ++ topicsOfLevel Intermediate topics
      ++ topicsOfLevel Advanced topics)%list ≡ₚ topics.
Proof.
  assert ((quizCourses courses ++ contentCourses Foundational courses
           ++ contentCourses Intermediate courses ++ contentCourses Advanced courses)%list
          ≡ₚ courses) as Hcourses.
  { unfold quizCourses, contentCourses.
    induction courses as [|c cs IH]; simpl; [done|].
    destruct (type c), (courseLevel c); simpl.
    - rewrite <- Permutation_middle. by constructor.
    - rewrite (app_assoc _ _ (c :: _)), <- Permutation_middle, <- app_assoc.
      by constructor.
    - rewrite (app_assoc _ _ (_ ++ c :: _)), (app_assoc _ _ (c :: _)),
        <- Permutation_middle, <- !app_assoc.
      by constructor.
    - by constructor.
    - by constructor.
    - by constructor. }
  split; [done|]. split.
  - eexists. split; [reflexivity|]. simpl.
    rewrite !map_app, !map_map. simpl. rewrite <- !map_app.
    by apply Permutation_map.
  - unfold topicsOfLevel. induction topics as [|t ts IH]; simpl; [done|].
    destruct (topicLevel t); simpl.
    + by constructor.
    + rewrite <- Permutation_middle. by constructor.
    + rewrite (app_assoc _ _ (t :: _)), <- Permutation_middle, <- app_assoc.
      by constructor.
Qed.

(** X20. Stripping the tags of a description never lengthens it, and leaves
    it as it is exactly when it holds no "<" directly followed by a
    character other than ">". *)
Theorem stripTags_changes_only_texts_with_a_tag (s : string) :
  (String.length (stripTags s) <= String.length s)%nat
  /\ (stripTags s = s <-> hasTag s = false).
Proof. split; [apply strip_length | apply strip_unchanged]. Qed.

(** X21. A stripped description holds no tag any more: no "<" in it is
    followed by a character other than ">", so stripping it again changes
    nothing. *)
Theorem stripped_text_has_no_tag_left (s : string) :
  hasTag (stripTags s) = false
  /\ stripTags (stripTags s) = stripTags s.
Proof.
  assert (hasTag (stripTags s) = false) as H by apply strip_no_tag.
  split; [done|]. by apply strip_unchanged.
Qed.

Lemma strip_plain (text rest : string) :
  noLessThan text -> strip false (text ++ rest) = text ++ strip false rest.
Proof.
  induction text as [|c text IH]; intros Hno; simpl; [done|].
  rewrite (Hno c) by (simpl; auto). simpl. rewrite IH; [done|].
  intros d Hd. apply Hno. simpl. auto.
Qed.

Lemma strip_inside (body rest : string) :
  noGreaterThan body -> strip true (body ++ ">" ++ rest) = strip false rest.
Proof.
  induction body as [|c body IH]; intros Hno; simpl; [done|].
  rewrite (Hno c) by (simpl; auto). apply IH.
  intros d Hd. apply Hno. simpl. auto.
Qed.

(** X22. On a description made of plain text and tags (plain text without
    "<", tags with a non-empty body without ">"), stripping removes every
    tag and keeps the plain text, all of it and in order. *)
Theorem stripTags_keeps_the_plain_text (pieces : list Piece) :
  Forall wellFormed pieces ->
  stripTags (markup pieces) = plainText pieces.
Proof.
  unfold stripTags. induction 1 as [|p pieces Hp _ IH]; simpl; [done|].
  destruct p as [text|body]; simpl in *.
  - by rewrite strip_plain, IH.
  - destruct Hp as [Hne Hno]. rewrite opensTag_startsRun.
    destruct body as [|c body]; [done|]. simpl.
    rewrite (Hno c) by (simpl; auto). simpl.
    rewrite strip_inside; [done|]. intros d Hd. apply Hno. simpl. auto.
Qed.

End CoursesFacts.

Lemma stripTags_keeps_the_plain_text_witness :
  Courses.stripTags "<p>Ohm's <b>law</b></p>" = "Ohm's law".
Proof.
  apply (stripTags_keeps_the_plain_text Samples.description).
  repeat constructor; try done; intros c Hc; simpl in Hc;
    repeat (destruct Hc as [<-|Hc]; [reflexivity|]); destruct Hc.
Defined.

(** ** The editor: its variables *)

Section FormFacts.
Import Schema Js Editor EditorForm.

Lemma elem_of_insert_inv {A : Type} (l : list A) (i : nat) (x y : A) :
  x ∈ <[i := y]> l -> x = y \/ x ∈ l.
Proof.
  revert i. induction l as [|z l IH]; intros i; simpl; [by right|].
  destruct i as [|i]; simpl; intros H; apply elem_of_cons in H as [->|H].
  - by left.
  - right. by right.
  - right. by left.
  - destruct (IH i H) as [->|?]; [by left | right; by right].
Qed.

Lemma elem_of_sublist {A : Type} (l k : list A) (x : A) :
  sublist l k -> x ∈ l -> x ∈ k.
Proof.
  induction 1 as [|y l k _ IH|y l k _ IH]; intros H; [done| |].
  - apply elem_of_cons in H as [->|H]; [by left | right; by apply IH].
  - right. by apply IH.
Qed.

Lemma elem_of_reorder (from to : nat) (vs : list FormVariable) (v : FormVariable) :
  v ∈ reorder from to vs -> v ∈ vs.
Proof.
  unfold reorder. destruct (vs !! from) as [w|] eqn:Hw; [|done].
  rewrite elem_of_app, elem_of_cons. intros [H|[->|H]].
  - eapply elem_of_sublist; [apply sublist_delete|].
    eapply elem_of_sublist; [apply sublist_take | done].
  - by apply list_elem_of_lookup_2 in Hw.
  - eapply elem_of_sublist; [apply sublist_delete|].
    eapply elem_of_sublist; [apply sublist_drop | done].
Qed.

(** A control of one item keeps the form consistent when what it writes is
    consistent for the type of the form. *)
Lemma onItem_consistent (index : nat) (enabled : QVariable -> bool)
    (f : QVariable -> QVariable) (form : Form) :
  consistent form ->
  (forall v, enabled v = true ->
             randomize v && isFinalAnswer v = false ->
             (questionType form = static -> randomize v = false) ->
             (randomize (f v) && isFinalAnswer (f v) = false)
             /\ (questionType form = static -> randomize (f v) = false)) ->
  consistent (onItem index enabled f form).
Proof.
  intros Hform Hf. unfold onItem.
  destruct (variables form) as [vs|] eqn:Hvs; [|done].
  destruct (vs !! index) as [v|] eqn:Hv; [|done].
  destruct (enabled (item v)) eqn:Hen; [|done].
  assert (v ∈ default [] (variables form)) as Hin
    by (rewrite Hvs; by apply list_elem_of_lookup_2 in Hv).
  intros w Hw. simpl in Hw. apply elem_of_insert_inv in Hw as [->|Hw].
  - simpl. destruct (Hform v Hin) as [H1 H2]. by apply Hf.
  - apply Hform. by rewrite Hvs.
Qed.

Lemma apply_consistent (form : Form) (ev : Event) :
  consistent form -> consistent (apply form ev).
Proof.
  intros Hform. destruct ev as [k e|i|from to|i|i|i input|[|]]; simpl.
  - intros v Hv. simpl in Hv. apply elem_of_app in Hv as [Hv|Hv]; [by apply Hform|].
    apply list_elem_of_singleton in Hv. by subst v.
  - intros v Hv. simpl in Hv. apply Hform.
    destruct (variables form) as [vs|]; [|done]. simpl in *.
    by apply list_elem_of_delete_inv in Hv.
  - intros v Hv. simpl in Hv. apply Hform.
    destruct (variables form) as [vs|]; [|done]. simpl in *.
    by apply elem_of_reorder in Hv.
  - apply onItem_consistent; [done|]. intros v _ _ _. simpl. by split.
  - destruct (questionType form) eqn:Htype; [|done].
    apply onItem_consistent; [done|]. intros v Hen _ _. simpl.
    apply negb_true_iff in Hen. rewrite Hen, andb_false_r. split; [done | intros H; congruence].
  - apply onItem_consistent; [done|]. intros v _ H1 H2. simpl. by split.
  - intros v Hv. simpl in *. destruct (Hform v Hv) as [H1 _]. by split.
  - intros v Hv. simpl in *.
    destruct (variables form) as [vs|]; simpl in Hv; [|by apply elem_of_nil in Hv].
    apply list_elem_of_In, in_map_iff in Hv as (w & <- & _). simpl. by split.
Qed.

Lemma apply_keeps_static (form : Form) (ev : Event) :
  ev <> TypeChanged dynamic -> questionType form = static ->
  questionType (apply form ev) = static.
Proof.
  intros Hev Htype.
  destruct ev as [k e|i|from to|i|i|i input|[|]]; simpl; try done;
    unfold onItem; try rewrite Htype; simpl; try done;
    repeat (case_match; simpl; try done).
Qed.

(** X23. Whatever the author does with the variables (adding, removing,
    dragging, typing into the inputs that are shown, pressing the enabled
    buttons, switching the question type), no variable ever becomes both
    randomized and a final answer, and a static question never gets a
    randomized variable, provided the form started that way. *)
Theorem variables_stay_consistent (form : Form) (evs : list Event) :
  consistent form -> consistent (run form evs).
Proof.
  revert form. induction evs as [|ev evs IH]; intros form Hform; [done|].
  apply IH. by apply apply_consistent.
Qed.

(** X24. Switching the question to static makes the form consistent for a
    static question whatever it was before: after the switch, and after
    anything the author does next short of switching back, no variable is
    randomized. *)
Theorem static_question_has_no_randomized_variable (form : Form) (evs : list Event) :
  (forall ev, ev ∈ evs -> ev <> TypeChanged dynamic) ->
  let after := run (apply form (TypeChanged static)) evs in
  questionType after = static
  /\ forall v, v ∈ default [] (variables after) -> randomize (item v) = false.
Proof.
  intros Hstay after. subst after.
  assert (questionType (apply form (TypeChanged static)) = static) as Htype by done.
  assert (consistent (apply form (TypeChanged static))) as Hc.
  { intros v Hv. simpl in Hv.
    destruct (variables form) as [vs|]; simpl in Hv; [|by apply elem_of_nil in Hv].
    by apply list_elem_of_In, in_map_iff in Hv as (w & <- & _). }
  revert Htype Hc. generalize (apply form (TypeChanged static)) as f. clear form.
  induction evs as [|ev evs IH]; intros f Htype Hc.
  - split; [done|]. intros v Hv. by apply (Hc v Hv).
  - simpl. apply IH.
    + intros e He. apply Hstay. by right.
    + apply apply_keeps_static; [|done]. apply Hstay. by left.
    + by apply apply_consistent.
Qed.

End FormFacts.

Lemma variables_stay_consistent_witness :
  EditorForm.consistent
    (EditorForm.run
       {| EditorForm.questionType := Editor.dynamic; EditorForm.variationId := 0;
          EditorForm.baseQuestionId := None; EditorForm.variables := None |}
       [EditorForm.NewVar "k1" "e1"; EditorForm.ClickRandomize 0;
        EditorForm.ClickFinalAnswer 0; EditorForm.NewVar "k2" "e2";
        EditorForm.ClickFinalAnswer 1; EditorForm.ClickRandomize 1;
        EditorForm.TypeChanged Editor.static]).
Proof.
  apply variables_stay_consistent. intros v Hv. by apply elem_of_nil in Hv.
Defined.

Lemma static_question_has_no_randomized_variable_witness :
  let after :=
    EditorForm.run
      (EditorForm.apply
         {| EditorForm.questionType := Editor.dynamic; EditorForm.variationId := 0;
            EditorForm.baseQuestionId := None;
            EditorForm.variables :=
              Some [ {| EditorForm.itemKey := "k"; EditorForm.encoded := "e";
                        EditorForm.item := Scenario.voltage |} ] |}
         (EditorForm.TypeChanged Editor.static))
      [EditorForm.ClickRandomize 0; EditorForm.NewVar "k2" "e2"] in
  EditorForm.questionType after = Editor.static
  /\ forall v, v ∈ default [] (EditorForm.variables after) ->
               Schema.randomize (EditorForm.item v) = false.
Proof.
  apply static_question_has_no_randomized_variable.
  intros ev Hev. apply list_elem_of_In in Hev. simpl in Hev.
  destruct Hev as [<-|[<-|[]]]; discriminate.
Defined.

(** ** The editor: the title *)

Section TitleFacts.
Import Schema Js Editor EditorForm.

Lemma titleIssues_nil (questions : option (list Question)) (currQuestionId : option Z)
    (title : string) :
  titleIssues questions currQuestionId title = [] <->
  (5 <= String.length (trim title) <= 150)%nat
  /\ trim title ∉ otherTitles questions currQuestionId.
Proof.
  unfold titleIssues. rewrite <- includes_string_elem.
  destruct (Nat.leb_spec 5 (String.length (trim title)));
    destruct (Nat.leb_spec (String.length (trim title)) 150);
    destruct (includes String.eqb _ (trim title)); simpl;
    split; try done; try (intros [? ?]; done || lia).
Qed.

Lemma NoDup_map_inj {A B : Type} (f : A -> B) (l : list A) (x y : A) :
  NoDup (map f l) -> x ∈ l -> y ∈ l -> f x = f y -> x = y.
Proof.
  induction l as [|z l IH]; simpl; intros Hnd Hx Hy Heq; [by apply elem_of_nil in Hx|].
  apply NoDup_cons in Hnd as [Hz Hnd].
  assert (forall w, w ∈ l -> f w ∈ map f l) as Hmap.
  { intros w Hw. apply list_elem_of_In, in_map. by apply list_elem_of_In. }
  apply elem_of_cons in Hx as [->|Hx]; apply elem_of_cons in Hy as [->|Hy].
  - done.
  - exfalso. apply Hz. rewrite Heq. by apply Hmap.
  - exfalso. apply Hz. rewrite <- Heq. by apply Hmap.
  - by apply IH.
Qed.

(** X25. When a question is added, a title passes the check exactly when,
    trimmed, it has between 5 and 150 characters and is the title of no
    question of the list. *)
Theorem new_title_is_accepted_iff_unused (questions : option (list Question))
    (title : string) :
  titleIssues questions None title = [] <->
  (5 <= String.length (trim title) <= 150)%nat
  /\ trim title ∉ map questionTitle (default [] questions).
Proof.
  rewrite titleIssues_nil. unfold otherTitles.
  split; intros [Hlen Hnew]; (split; [done|]); intros Hin; apply Hnew.
  - apply list_elem_of_In, filter_In. split.
    + by apply list_elem_of_In, elem_of_remove_dups.
    + destruct (trim title); [simpl in Hlen; lia | done].
  - apply list_elem_of_In, filter_In in Hin as [Hin _].
    apply list_elem_of_In in Hin. by rewrite elem_of_remove_dups in Hin.
Qed.

(** X26. When a question is edited, the title of a question of the list
    (titles are unique in the table) passes the check exactly when that
    question is the first one listed with the edited question id: the
    other variations of the edited question cannot keep their own title. *)
Theorem listed_title_is_accepted_only_for_the_first_variation
    (data : list Question) (current : Z) (q : Question) :
  current <> 0%Z ->
  q ∈ data ->
  NoDup (map questionTitle data) ->
  trim (questionTitle q) = questionTitle q ->
  (5 <= String.length (questionTitle q) <= 150)%nat ->
  titleIssues (Some data) (Some current) (questionTitle q) = [] <->
  List.find (fun q' => (questionId q' =? current)%Z) data = Some q.
Proof.
  intros Hcur Hq Hnd Htrim Hlen. rewrite titleIssues_nil, Htrim.
  unfold otherTitles. simpl. destruct (Z.eqb_spec current 0) as [?|_]; [done|].
  assert (questionTitle q ∈ remove_dups (map questionTitle data)) as Hlisted.
  { apply elem_of_remove_dups, list_elem_of_In, in_map. by apply list_elem_of_In. }
  destruct (List.find _ data) as [q0|] eqn:Hfind.
  - apply find_some in Hfind as [Hq0 _]. apply list_elem_of_In in Hq0.
    split.
    + intros [_ Hnot]. f_equal.
      destruct (String.eqb_spec (questionTitle q) (questionTitle q0)) as [Heq|Hne].
      * symmetry. by apply (NoDup_map_inj questionTitle data).
      * exfalso. apply Hnot, list_elem_of_In, filter_In.
        split; [by apply list_elem_of_In|].
        by apply negb_true_iff, String.eqb_neq.
    + intros [= ->]. split; [done|].
      intros Hin. apply list_elem_of_In, filter_In in Hin as [_ Hne].
      by rewrite String.eqb_refl in Hne.
  - split; [|done]. by intros [_ Hnot].
Qed.

End TitleFacts.

Lemma new_title_is_accepted_iff_unused_witness :
  EditorForm.titleIssues (Some Samples.listed) None "  Current divider " = [].
Proof.
  apply new_title_is_accepted_iff_unused. split.
  - simpl. lia.
  - intros Hin. apply list_elem_of_In in Hin. simpl in Hin.
    destruct Hin as [H|[H|[H|[]]]]; discriminate.
Defined.

Lemma listed_title_is_accepted_only_for_the_first_variation_witness :
  (EditorForm.titleIssues (Some Samples.listed) (Some 7%Z) "Voltage divider, loaded" = []
   <-> List.find (fun q' => (Schema.questionId q' =? 7)%Z) Samples.listed
       = Some (Samples.titled 7 2 "Voltage divider, loaded"))
  /\ EditorForm.titleIssues (Some Samples.listed) (Some 7%Z) "Voltage divider, loaded"
     = ["Title already exists"].
Proof.
  split; [|reflexivity].
  apply (listed_title_is_accepted_only_for_the_first_variation
           Samples.listed 7 (Samples.titled 7 2 "Voltage divider, loaded")).
  - done.
  - apply list_elem_of_In. simpl. auto.
  - by apply (bool_decide_unpack _).
  - reflexivity.
  - simpl. lia.
Defined.

(** ** The editor: variation ids *)

Section VariationFacts.
Import Schema Js Editor.

Lemma fold_nextCandidate_positive (all suf : list Z) (acc : Z) :
  Forall (fun x => (0 <= x)%Z) suf -> (1 <= acc)%Z ->
  (1 <= fold_left (nextCandidate all) suf acc)%Z.
Proof.
  revert acc. induction suf as [|curr rest IH]; intros acc Hpos Hacc; simpl; [done|].
  apply Forall_cons in Hpos as [Hcurr Hrest]. apply IH; [done|].
  unfold nextCandidate. destruct (_ && _); lia.
Qed.

(** X27. Whatever the order of the list, the variation id given to a new
    static variation is at least 1 when no listed variation id is negative:
    a static variation never gets 0, the id of the dynamic question. *)
Theorem new_static_variation_is_never_the_dynamic_one
    (questions : option (list Question)) (value : option string) (n : Z) :
  Forall (fun q => (0 <= variationId q)%Z) (default [] questions) ->
  baseQuestionChanged questions value = Some n ->
  (1 <= n)%Z.
Proof.
  intros Hpos. unfold baseQuestionChanged.
  destruct value as [v|]; [|by intros [= <-]].
  destruct (truthy v); [|by intros [= <-]].
  destruct questions as [qs|]; [|done]. simpl in *. intros [= <-].
  apply fold_nextCandidate_positive; [|lia].
  apply Forall_forall. intros x Hx.
  apply list_elem_of_In, in_map_iff in Hx as (q & <- & Hq).
  apply filter_In in Hq as [Hq _].
  by apply (proj1 (Forall_forall _ _) Hpos), list_elem_of_In.
Qed.

(** X28. On an ascending list of ids, none negative, the id computed is
    the smallest unused one, and no other id is. *)
Theorem ascending_ids_give_the_smallest_unused_id (variationIds : list Z) (n : Z) :
  StronglySorted Z.lt variationIds ->
  Forall (fun x => (0 <= x)%Z) variationIds ->
  smallestUnused variationIds n <-> n = unusedVariationId variationIds.
Proof.
  intros Hsorted Hpos.
  pose proof (unusedVariationId_ascending variationIds Hsorted Hpos)
    as (Hone & Hfresh & Hbelow).
  split; [|by intros ->].
  intros (Hone' & Hfresh' & Hbelow').
  destruct (Z.lt_trichotomy n (unusedVariationId variationIds)) as [Hlt|[?|Hgt]]; [|done|].
  - exfalso. apply Hfresh', Hbelow. lia.
  - exfalso. apply Hfresh, Hbelow'. lia.
Qed.

End VariationFacts.

Lemma new_static_variation_is_never_the_dynamic_one_witness :
  exists n,
    Editor.baseQuestionChanged
      (Some [Scenario.question5; Scenario.question7v2; Scenario.question7]) (Some "7")
    = Some n
    /\ (1 <= n)%Z.
Proof.
  exists 2%Z. split; [reflexivity|].
  apply (new_static_variation_is_never_the_dynamic_one
           (Some [Scenario.question5; Scenario.question7v2; Scenario.question7])
           (Some "7")).
  - repeat constructor; simpl; lia.
  - reflexivity.
Defined.

Lemma ascending_ids_give_the_smallest_unused_id_witness :
  Editor.smallestUnused [1; 2; 4]%Z 3%Z.
Proof.
  apply ascending_ids_give_the_smallest_unused_id.
  - repeat constructor; lia.
  - repeat constructor; lia.
  - reflexivity.
Defined.

(** ** The editor: method expressions and the preview *)

Section ExpressionFacts.
Import Schema Js Editor EditorForm.

Lemma blank_nonempty (s : string) : blank s = false -> s <> "".
Proof. by intros H ->. Qed.

(** What is left of a trimmed text starts with a character that is not
    white space. *)
Lemma trimStart_head (s : string) (c : ascii) (rest : string) :
  trimStart s = String c rest -> isWhiteSpace c = false.
Proof.
  induction s as [|c0 s IH]; simpl; [done|].
  destruct (isWhiteSpace c0) eqn:Hc0; [done|]. by intros [= <- _].
Qed.

Lemma trimEnd_head (s : string) (c : ascii) (rest : string) :
  trimEnd s = String c rest -> exists rest', s = String c rest'.
Proof.
  destruct s as [|c0 s]; simpl; [done|].
  destruct (trimEnd s); [destruct (isWhiteSpace c0); [done|] |];
    intros [= <- _]; by eexists.
Qed.

Lemma trim_head (s : string) (c : ascii) (rest : string) :
  trim s = String c rest -> isWhiteSpace c = false.
Proof.
  unfold trim. intros H. apply trimEnd_head in H as [rest' H].
  by apply trimStart_head in H.
Qed.

(** No non-empty end of a text trimmed at its end is blank. *)
Lemma trimEnd_tail (s : string) :
  forall l r, trimEnd s = l ++ r -> r <> "" -> blank r = false.
Proof.
  induction s as [|c s IH]; intros l r; simpl.
  - destruct l, r; done.
  - destruct (trimEnd s) as [|c' t'] eqn:Ht.
    + destruct (isWhiteSpace c) eqn:Hc; [by destruct l, r|].
      destruct l as [|cl l].
      * intros H _. change (String c "" = r) in H. subst r. simpl. by rewrite Hc.
      * intros H Hr. change (String c "" = String cl (l ++ r)) in H.
        injection H as _ H. by destruct l, r.
    + destruct l as [|cl l].
      * intros H _. change (String c (String c' t') = r) in H. subst r.
        change (isWhiteSpace c && blank (String c' t') = false).
        rewrite (IH "" (String c' t') eq_refl); [|done].
        apply andb_false_r.
      * intros H Hr. change (String c (String c' t') = String cl (l ++ r)) in H.
        injection H as _ H. by apply (IH l r).
Qed.

(** X29. An expression passes the editor's check exactly when, trimmed, it
    is a left side, one "=", and a right side, where neither side holds an
    "=" and neither side is blank. *)
Theorem accepted_expression_has_two_sides_that_are_not_blank (expr : string) :
  exprIssues expr = [] <->
  exists l r, trim expr = l ++ String "=" r
              /\ countEquals l = 0%nat /\ countEquals r = 0%nat
              /\ blank l = false /\ blank r = false.
Proof.
  unfold exprIssues. split.
  - destruct (methodPattern (trim expr)) eqn:Hp; [|done]. intros _.
    apply methodPattern_split in Hp as (l & r & Ht & Hl & Hcl & Hr & Hcr).
    exists l, r. repeat split; try done.
    + destruct l as [|c l]; [done|]. simpl in Ht.
      apply trim_head in Ht. simpl. by rewrite Ht.
    + unfold trim in Ht.
      apply (trimEnd_tail (trimStart expr) (l ++ "=") r); [|done].
      rewrite Ht. clear. induction l as [|c l IH]; [done|].
      change (String c (l ++ String "=" r) = String c ((l ++ "=") ++ r)).
      by rewrite IH.
  - intros (l & r & Ht & Hcl & Hcr & Hl & Hr).
    assert (methodPattern (trim expr) = true) as ->.
    { apply methodPattern_split. exists l, r.
      repeat split; try done; by apply blank_nonempty. }
    rewrite Ht. by destruct l.
Qed.

Variable Rand : Type.
Variable CustomEval :
  Rand -> option (list QVariable) -> option (list Method) -> bool -> completion Evaluated.
Variable JSON_parse : string -> completion ErrorPayload.

Local Abbreviation reportFailure := (Editor.reportFailure JSON_parse).
Local Abbreviation handlePreviewChange :=
  (Editor.handlePreviewChange Rand CustomEval JSON_parse).

(** The catch branch throws only what [JSON.parse] throws on the message
    of an error of cause "invalid-methods". *)
Lemma reportFailure_Throw (st : EditorState) (variables : option (list QVariable))
    (issues : list (list string)) (e e' : thrown) :
  reportFailure st variables issues e = Throw e' <->
  exists message,
    e = Error message (Some "invalid-methods") /\ JSON_parse message = Throw e'.
Proof.
  split.
  - unfold Editor.reportFailure. intros H.
    repeat (case_match; try discriminate); subst. exists message. split; [done|].
    congruence.
  - intros (message & -> & Hparse). simpl. by rewrite Hparse.
Qed.

(** X30. The preview throws in one case only: the question is dynamic, the
    evaluation fails with an error of cause "invalid-methods", and the
    message of that error cannot be parsed; what is thrown is then what
    [JSON.parse] throws. A static question is never evaluated. *)
Theorem preview_throws_only_on_an_unreadable_error_message
    (rnd : Rand) (toRandomize : bool) (st : EditorState) (e : thrown) :
  handlePreviewChange rnd toRandomize st = Throw e <->
  Editor.questionType st = dynamic
  /\ exists message,
       CustomEval rnd (option_map (map trimName) (formVariables st)) (formMethods st)
         toRandomize
       = Throw (Error message (Some "invalid-methods"))
       /\ JSON_parse message = Throw e.
Proof.
  unfold Editor.handlePreviewChange.
  destruct (Editor.questionType st).
  - destruct (CustomEval _ _ _ _) as [evaluated|e0].
    + split; [done|]. by intros (_ & message & H & _).
    + rewrite reportFailure_Throw. split.
      * intros (message & -> & Hparse). split; [done|]. by exists message.
      * intros (_ & message & [= ->] & Hparse). by exists message.
  - split; [|by intros [? _]].
    destruct (option_map _ _) as [[|v vs]|]; done.
Qed.

End ExpressionFacts.
